(** * adampresleyphotography: the derived-asset pipeline

    A shallow embedding of the cache builder
    ([cmd/website/internal/cache]), the archive builder and janitor
    ([pkg/services/ZipService.go]) and the download-by-filename handler
    ([clientaccess.DownloadZip]), with the properties the design document
    states about them.

    Conventions.
    - Go [string] is a byte string: Rocq [string] (a list of [ascii]).
    - Go [uint] identifiers are [N]; Go [int] is [Z] (no arithmetic in the
      embedded code can leave the 64-bit range, except [strconv.Atoi], whose
      range check is written out).
    - [time.Time] is an instant, a number of nanoseconds: [Z].
    - a Go [(T, error)] result is [Result T]; a nil pointer is [None].
    - Go interfaces and the libraries behind them (object store, catalog,
      mail API, zip writer, image codecs) are type classes of operations over
      an abstract world [W]; the embedded code threads the world through its
      calls and records every call, with its outcome, in a history of
      [Event]s.
    - a closure handed to the worker pool or to [go] is recorded as a [Task];
      what a worker then runs is a function of its own.  The channel, ticker
      and wait group of the janitor live in a small heap, [Runtime]. *)

From Stdlib Require Import ZArith NArith List String Ascii Bool Lia.
From Stdlib Require Import DecimalString SpecFloat.
Import ListNotations.

Local Open Scope string_scope.
Local Open Scope Z_scope.

(** ** The parts of the Go standard library the code calls *)

Module strings.

(** Bytes [A]..[Z] go to [a]..[z]; every other byte is kept.  This is
    [strings.ToLower] on ASCII input, which is what object keys are. *)
Definition lower_byte (c : ascii) : ascii :=
  let n := nat_of_ascii c in
  if ((65 <=? n) && (n <=? 90))%nat then ascii_of_nat (n + 32) else c.

Fixpoint ToLower (s : string) : string :=
  match s with
  | EmptyString => EmptyString
  | String c r => String (lower_byte c) (ToLower r)
  end.

(** [len(s) >= len(prefix) && s[:len(prefix)] == prefix] *)
Fixpoint HasPrefix (s pre : string) {struct pre} : bool :=
  match pre, s with
  | EmptyString, _ => true
  | String a p, String b r => Ascii.eqb a b && HasPrefix r p
  | String _ _, EmptyString => false
  end.

(** [len(s) >= len(suffix) && s[len(s)-len(suffix):] == suffix] *)
Definition HasSuffix (s suffix : string) : bool :=
  (String.length suffix <=? String.length s)%nat
  && String.eqb
       (substring (String.length s - String.length suffix)
                  (String.length suffix) s)
       suffix.

Definition TrimSuffix (s suffix : string) : string :=
  if HasSuffix s suffix
  then substring 0 (String.length s - String.length suffix) s
  else s.

(** Left-to-right, non-overlapping replacement of [old] (non-empty) by
    [new].  [skip] counts the bytes of a match still to be dropped. *)
Fixpoint replace_from (skip : nat) (s old new : string) : string :=
  match s with
  | EmptyString => EmptyString
  | String c r =>
      match skip with
      | S k => replace_from k r old new
      | O =>
          if HasPrefix s old
          then new ++ replace_from (String.length old - 1) r old new
          else String c (replace_from O r old new)
      end
  end.

Definition ReplaceAll (s old new : string) : string :=
  match old with
  | EmptyString => s
  | _ => replace_from O s old new
  end.

(** [strings.Split] for a non-empty separator: the pieces between the
    non-overlapping occurrences of [sep], at least one piece.  [cur] is
    the piece being read, reversed. *)
Fixpoint split_from (skip : nat) (s sep : string) (cur : list ascii)
  : list string :=
  match s with
  | EmptyString => [string_of_list_ascii (rev cur)]
  | String c r =>
      match skip with
      | S k => split_from k r sep cur
      | O =>
          if HasPrefix s sep
          then string_of_list_ascii (rev cur)
               :: split_from (String.length sep - 1) r sep []
          else split_from O r sep (c :: cur)
      end
  end.

Definition Split (s sep : string) : list string :=
  match sep with
  | EmptyString => map (fun c => String c EmptyString) (list_ascii_of_string s)
  | _ => split_from O s sep []
  end.

End strings.

Module fmt.

(** [fmt.Sprint] and [%d] on an unsigned and on a signed integer. *)
Definition Sprint_uint (n : N) : string :=
  NilEmpty.string_of_uint (N.to_uint n).

Definition Sprint_int (z : Z) : string :=
  NilEmpty.string_of_int (Z.to_int z).

End fmt.

Module strconv.

Definition digit_of (c : ascii) : option Z :=
  let n := nat_of_ascii c in
  if ((48 <=? n) && (n <=? 57))%nat then Some (Z.of_nat (n - 48)) else None.

Fixpoint digits (s : string) (acc : Z) : option Z :=
  match s with
  | EmptyString => Some acc
  | String c r =>
      match digit_of c with
      | Some d => digits r (acc * 10 + d)
      | None => None
      end
  end.

Definition minInt : Z := - 2 ^ 63.
Definition maxInt : Z := 2 ^ 63 - 1.

(** [strconv.Atoi] on a 64-bit platform: an optional sign, then one or
    more decimal digits, the value within the range of [int]; any other
    text is an error ([None]).  The fast path of the library (fewer than
    19 bytes) and its slow path ([ParseInt(s, 10, 0)]) accept the same
    texts with the same values. *)
Definition Atoi (s : string) : option Z :=
  match s with
  | EmptyString => None
  | String c r =>
      let '(neg, body) :=
        if Ascii.eqb c "-" then (true, r)
        else if Ascii.eqb c "+" then (false, r)
        else (false, s) in
      match body with
      | EmptyString => None
      | _ =>
          match digits body 0 with
          | Some n =>
              let v := if neg then - n else n in
              if (minInt <=? v) && (v <=? maxInt) then Some v else None
          | None => None
          end
      end
  end.

End strconv.

Module filepath.

Definition Separator : ascii := "/".

Definition is_sep (c : ascii) : bool := Ascii.eqb c Separator.

Fixpoint drop_leading_seps (l : list ascii) : list ascii :=
  match l with
  | c :: r => if is_sep c then drop_leading_seps r else l
  | [] => []
  end.

(** The bytes before the first separator of [l]. *)
Fixpoint until_sep (l : list ascii) : list ascii :=
  match l with
  | c :: r => if is_sep c then [] else c :: until_sep r
  | [] => []
  end.

(** [filepath.Base]: trailing separators are dropped, then everything up
    to the last separator; [""] gives ["."], only separators give ["/"]. *)
Definition Base (path : string) : string :=
  match path with
  | EmptyString => "."
  | _ =>
      let r := drop_leading_seps (rev (list_ascii_of_string path)) in
      match rev (until_sep r) with
      | [] => String Separator EmptyString
      | l => string_of_list_ascii l
      end
  end.

(** The bytes of [l] (a reversed path) up to and including its first dot,
    if that dot comes before any separator. *)
Fixpoint ext_rev (l : list ascii) (acc : list ascii) : list ascii :=
  match l with
  | [] => []
  | c :: r =>
      if is_sep c then []
      else if Ascii.eqb c "." then c :: acc
      else ext_rev r (c :: acc)
  end.

Definition Ext (path : string) : string :=
  string_of_list_ascii (ext_rev (rev (list_ascii_of_string path)) []).

(** [filepath.Clean], by path elements. [stack] holds the kept elements,
    last first. *)
Fixpoint clean_elems (rooted : bool) (elems stack : list string)
  : list string :=
  match elems with
  | [] => rev stack
  | e :: r =>
      if String.eqb e "" || String.eqb e "." then clean_elems rooted r stack
      else if String.eqb e ".." then
        match stack with
        | top :: below =>
            if String.eqb top ".."
            then clean_elems rooted r (e :: stack)
            else clean_elems rooted r below
        | [] =>
            if rooted then clean_elems rooted r []
            else clean_elems rooted r [e]
        end
      else clean_elems rooted r (e :: stack)
  end.

Definition Clean (path : string) : string :=
  let rooted := strings.HasPrefix path "/" in
  let body := String.concat "/" (clean_elems rooted (strings.Split path "/") []) in
  if rooted then "/" ++ body
  else if String.eqb body "" then "." else body.

(** [filepath.Join]: empty elements are ignored, the rest joined by the
    separator and cleaned; no non-empty element gives [""]. *)
Definition Join (elem : list string) : string :=
  match filter (fun e => negb (String.eqb e "")) elem with
  | [] => ""
  | l => Clean (String.concat "/" l)
  end.

End filepath.

Module time.

(** An instant, in nanoseconds. *)
Definition Time : Type := Z.

(** [t.Before(u)]: the instant [t] is strictly earlier than [u]. *)
Definition Before (t u : Time) : bool := t <? u.

Definition day_ns : Z := 86400 * 1000000000.

End time.

Local Open Scope list_scope.

(** ** Data model *)

Definition error : Type := string.

Inductive Result (A : Type) : Type :=
| Ok (a : A)
| Err (e : error).
Arguments Ok {A} a.
Arguments Err {A} e.

Definition is_ok {A} (r : Result A) : bool :=
  match r with Ok _ => true | Err _ => false end.

Module Client.
(** [pkg/models.Client] *)
Record t := { ID : N; Password : string; Name : string; Email : string }.
End Client.

Module Album.
(** [pkg/models.Album] *)
Record t := {
  ID : N;
  Name : string;
  PosterImagePath : string;
  Path : string;
  ClientID : N;
  ShootDate : time.Time;
  PosterYPos : string
}.
End Album.

Module s3.

Module Object.
(** An entry of a listing. *)
Record t := { Key : string; LastModified : time.Time; Url : string }.
End Object.

Module ObjectMetadata.
Record t := { LastModified : time.Time; Size : Z; ContentType : string }.
End ObjectMetadata.

Module GetObjectResponse.
Record t := { Body : string; Size : Z; ContentType : string }.
End GetObjectResponse.

(** The options the code passes to [List]. *)
Inductive ListOption :=
| WithGetUrls
| WithGetAll
| WithFilter (keep : string -> bool)
| WithGetUrlExpiration (minutes : Z).

End s3.

Module email.
Record EmailAddress := { Email : string; Name : string }.
Record Mail := {
  Body : string;
  BodyIsHtml : bool;
  From : EmailAddress;
  Subject : string;
  To : list EmailAddress
}.
End email.

(** The [map[string]any] handed to the mail template. *)
Record TemplateData := {
  downloadURL : string;
  name : string;
  albumName : string;
  expirationDays : Z;
  toName : option string
}.

(** Work handed to the cache builder's pool ([pool.Submit]) and to a
    detached goroutine ([go]). *)
Inductive Task :=
| HeroTask (client : Client.t) (album : Album.t)
| ThumbnailTask (client : Client.t) (album : Album.t) (imageObj : s3.Object.t)
| HomeResizeTask (original : s3.Object.t) (thumbnailKey : string)
| ProcessZipTask (zipKey zipFilename : string) (album : Album.t) (client : Client.t).

Inductive Level := Info | Error.

(** ** History of calls to collaborators, each with its outcome *)

Inductive Event :=
| EStatObject (bucket key : string) (r : Result (option s3.ObjectMetadata.t))
| EList (bucket key : string) (opts : list s3.ListOption) (r : Result (list s3.Object.t))
| EGet (bucket key : string) (r : Result s3.GetObjectResponse.t)
| EPut (bucket key : string) (data : string) (r : Result unit)
| EPutStream (bucket key contentType : string) (r : Result unit)
| EDelete (bucket : string) (keys : list string) (r : Result unit)
| EBucketExists (bucket : string) (r : Result bool)
| ECreateBucket (bucket region : string) (r : Result unit)
| EGetAll (r : Result (list Client.t))
| EGetAlbumList (clientID : N) (r : Result (list Album.t))
| ESend (apiKey : string) (m : email.Mail) (r : Result unit)
| EZipCreate (stream name : string) (r : Result unit)
| ECopy (stream name : string) (r : Result unit)
| EBodyClose (key : string)
| EZipClose (stream : string) (r : Result unit)
| EStreamClose (stream : string) (r : Result unit)
| EStreamWait (stream : string) (r : Result unit)
| EHttpGet (url : string) (r : Result (Z * string))
| EResponseCopy (body : string) (r : Result unit)
| ENow (t : time.Time)
| ENewPool (maxWorkers : Z)
| ESubmit (task : Task)
| EPoolStopWait
| EGo (task : Task)
| EExit (code : Z)
| ELog (lvl : Level) (msg : string).

(** ** Collaborators *)

(** [adamgokit/s3.S3Client] *)
Class S3Client (W : Type) := {
  StatObject : string -> string -> W -> Result (option s3.ObjectMetadata.t) * W;
  List : string -> string -> list s3.ListOption -> W -> Result (list s3.Object.t) * W;
  Get : string -> string -> W -> Result s3.GetObjectResponse.t * W;
  Put : string -> string -> string -> W -> Result unit * W;
  PutStream : string -> string -> string -> W -> Result unit * W;
  Delete : string -> list string -> W -> Result unit * W;
  BucketExists : string -> W -> Result bool * W;
  CreateBucket : string -> string -> W -> Result unit * W
}.

(** [services.ClientServicer] and [services.AlbumServicer], as far as the
    pipeline calls them. *)
Class ClientServicer (W : Type) := {
  GetAll : W -> Result (list Client.t) * W
}.

Class AlbumServicer (W : Type) := {
  GetAlbumList : N -> W -> Result (list Album.t) * W
}.

(** What the pipeline uses of the platform: the clock, the mail API
    ([email.NewResendService(...).Send]), [html/template], the zip writer on
    top of the upload stream, [io.Copy] (into a zip entry, and into an HTTP
    response) and [http.Get]. *)
Class Platform (W : Type) := {
  Now : W -> time.Time * W;
  AddDate : time.Time -> Z -> Z -> Z -> time.Time;
  Send : string -> email.Mail -> W -> Result unit * W;
  Execute : string -> TemplateData -> string;
  zipCreate : string -> string -> W -> Result unit * W;
  ioCopy : string -> string -> string -> W -> Result unit * W;
  zipClose : string -> W -> Result unit * W;
  streamClose : string -> W -> Result unit * W;
  streamWait : string -> W -> Result unit * W;
  httpGet : string -> W -> Result (Z * string) * W;
  responseCopy : string -> W -> Result unit * W
}.

(** ** Effects: the world is threaded, the calls are recorded *)

Section Effects.

Context {W : Type}.

Definition M (A : Type) : Type := W -> A * W * list Event.

Definition ret {A} (a : A) : M A := fun w => (a, w, []).

Definition bind {A B} (m : M A) (k : A -> M B) : M B :=
  fun w =>
    let '(a, w1, t1) := m w in
    let '(b, w2, t2) := k a w1 in
    (b, w2, t1 ++ t2).

Definition call {A} (op : W -> A * W) (ev : A -> Event) : M A :=
  fun w => let '(a, w1) := op w in (a, w1, [ev a]).

Definition emit (e : Event) : M unit := fun w => (tt, w, [e]).

Definition slog (lvl : Level) (msg : string) : M unit := emit (ELog lvl msg).

Definition val {A} (o : A * W * list Event) : A := fst (fst o).
Definition after {A} (o : A * W * list Event) : W := snd (fst o).
Definition events {A} (o : A * W * list Event) : list Event := snd o.

End Effects.

Notation "x <- m ;; k" := (bind m (fun x => k))
  (at level 61, m at next level, right associativity).
Notation "m ;;; k" := (bind m (fun _ => k))
  (at level 61, right associativity).

(** ** The Go runtime objects the archive service holds *)

(** [services.ZipServiceConfig]; its three collaborators are the classes
    above. *)
Record ZipServiceConfig := {
  BaseDownloadURL : string;
  Bucket : string;
  ClientPhotoFolder : string;
  ExpirationDays : Z;
  EmailApiKey : string;
  FromName : string;
  FromEmail : string
}.

(** [services.ZipService].  A channel, a ticker and a wait group are
    references into the runtime heap; a nil [*time.Ticker] is [None]. *)
Record ZipService := {
  config : ZipServiceConfig;
  cleanupTicker : option nat;
  stopCleanup : nat;
  wg : nat
}.

Inductive ChanState := ChanOpen | ChanClosed.
Inductive TickerState := TickerActive (interval : Z) | TickerStopped.

(** The goroutine spawned by [StartCleanupRoutine] closes over its receiver
    [s]. *)
Record Goroutine := { captured : ZipService; exited : bool }.

Record Runtime := {
  chans : list ChanState;
  tickers : list TickerState;
  wgs : list Z;
  goroutines : list Goroutine;
  logs : list string
}.

Definition set_nth {A} (i : nat) (a : A) (l : list A) : list A :=
  firstn i l ++ match skipn i l with [] => [] | _ :: r => a :: r end.

Definition make_chan (rt : Runtime) : nat * Runtime :=
  (List.length (chans rt),
   {| chans := chans rt ++ [ChanOpen]; tickers := tickers rt; wgs := wgs rt;
      goroutines := goroutines rt; logs := logs rt |}).

Definition new_WaitGroup (rt : Runtime) : nat * Runtime :=
  (List.length (wgs rt),
   {| chans := chans rt; tickers := tickers rt; wgs := wgs rt ++ [0];
      goroutines := goroutines rt; logs := logs rt |}).

Definition NewTicker (interval : Z) (rt : Runtime) : nat * Runtime :=
  (List.length (tickers rt),
   {| chans := chans rt; tickers := tickers rt ++ [TickerActive interval];
      wgs := wgs rt; goroutines := goroutines rt; logs := logs rt |}).

Definition wg_Add (w : nat) (d : Z) (rt : Runtime) : Runtime :=
  {| chans := chans rt; tickers := tickers rt;
     wgs := set_nth w (nth w (wgs rt) 0 + d) (wgs rt);
     goroutines := goroutines rt; logs := logs rt |}.

Definition close_chan (c : nat) (rt : Runtime) : Runtime :=
  {| chans := set_nth c ChanClosed (chans rt); tickers := tickers rt;
     wgs := wgs rt; goroutines := goroutines rt; logs := logs rt |}.

Definition ticker_Stop (t : nat) (rt : Runtime) : Runtime :=
  {| chans := chans rt; tickers := set_nth t TickerStopped (tickers rt);
     wgs := wgs rt; goroutines := goroutines rt; logs := logs rt |}.

Definition go (g : ZipService) (rt : Runtime) : Runtime :=
  {| chans := chans rt; tickers := tickers rt; wgs := wgs rt;
     goroutines := goroutines rt ++ [{| captured := g; exited := false |}];
     logs := logs rt |}.

Definition slog_Info (msg : string) (rt : Runtime) : Runtime :=
  {| chans := chans rt; tickers := tickers rt; wgs := wgs rt;
     goroutines := goroutines rt; logs := logs rt ++ [msg] |}.

Definition chan_closed (c : nat) (rt : Runtime) : bool :=
  match nth c (chans rt) ChanOpen with ChanClosed => true | ChanOpen => false end.

Definition ticker_active (t : nat) (rt : Runtime) : bool :=
  match nth t (tickers rt) TickerStopped with
  | TickerActive _ => true
  | TickerStopped => false
  end.

(** ** [pkg/services/ZipService.go] *)

Definition NewZipService (config : ZipServiceConfig) (rt : Runtime)
  : ZipService * Runtime :=
  (* Default expiration to 7 days if not specified *)
  let config :=
    if ExpirationDays config <=? 0
    then {| BaseDownloadURL := BaseDownloadURL config;
            Bucket := Bucket config;
            ClientPhotoFolder := ClientPhotoFolder config;
            ExpirationDays := 7;
            EmailApiKey := EmailApiKey config;
            FromName := FromName config;
            FromEmail := FromEmail config |}
    else config in
  let '(ch, rt) := make_chan rt in
  let '(w, rt) := new_WaitGroup rt in
  ({| config := config; cleanupTicker := None; stopCleanup := ch; wg := w |}, rt).

Definition Sprintf (parts : list string) : string := String.concat "" parts.

Definition dquote : string := String (ascii_of_nat 34) EmptyString.

Section ZipServiceCode.

Context {W : Type}.
Context `{S3 : S3Client W} `{CS : ClientServicer W} `{AS : AlbumServicer W}
        `{PF : Platform W}.

(** *** [EmailService.go] *)

Definition tmpl : string := Sprintf [
  "
<h1>Your photo album is ready!</h1>
<p>Hello {{.toName}}! The photos download you requested is now
ready. You can click the button below to download the album '{{.albumName}}'
as a ZIP file containing your photos. This link will expire in 2 days.</p>
<a href="; dquote; "{{.downloadURL}}"; dquote; ">Download Album</a>
	"].

Definition SendEmail (apiKey toName' toEmail fromName fromEmail : string)
           (data : TemplateData) : M (Result unit) :=
  let data := {| downloadURL := downloadURL data; name := name data;
                 albumName := albumName data;
                 expirationDays := expirationDays data;
                 toName := Some toName' |} in
  let mail := {| email.Body := Execute tmpl data;
                 email.BodyIsHtml := true;
                 email.From := {| email.Email := fromEmail; email.Name := fromName |};
                 email.Subject := "Your photos download is ready!";
                 email.To := [{| email.Email := toEmail; email.Name := toName' |}] |} in
  call (Send apiKey mail) (ESend apiKey mail).

(** *** [CreateZipAsync] *)

Definition jobID (album : Album.t) : string :=
  Sprintf [strings.ReplaceAll (Album.Name album) " " "-"; "-";
           fmt.Sprint_uint (Album.ID album)].

Definition zipFilename (album : Album.t) : string :=
  Sprintf [jobID album; ".zip"].

Definition zipKey (s : ZipService) (album : Album.t) (client : Client.t) : string :=
  filepath.Join [ClientPhotoFolder (config s);
                 fmt.Sprint_uint (Client.ID client);
                 fmt.Sprint_uint (Album.ID album);
                 "downloads";
                 zipFilename album].

Definition notification (s : ZipService) (album : Album.t) (client : Client.t)
  : TemplateData :=
  {| downloadURL := Sprintf [BaseDownloadURL (config s); "/client/downloads/";
                             zipFilename album];
     name := Client.Name client;
     albumName := Album.Name album;
     expirationDays := ExpirationDays (config s);
     toName := None |}.

Definition CreateZipAsync (s : ZipService) (album : Album.t) (client : Client.t)
  : M (string * Result unit) :=
  (* Check if the file already exists *)
  stat <- call (StatObject (Bucket (config s)) (zipKey s album client))
               (EStatObject (Bucket (config s)) (zipKey s album client)) ;;
  match stat with
  | Ok (Some objectData) =>
      slog Info "zip file already exists, sending email only" ;;;
      err <- SendEmail (EmailApiKey (config s)) (Client.Name client)
                       (Client.Email client) (FromName (config s))
                       (FromEmail (config s)) (notification s album client) ;;
      match err with
      | Err e =>
          slog Error "failed to send email notification" ;;;
          ret (jobID album, Err e)
      | Ok _ => ret (jobID album, Ok tt)
      end
  | _ =>
      (* Start the background job to create the zip *)
      emit (EGo (ProcessZipTask (zipKey s album client) (zipFilename album)
                                album client)) ;;;
      ret (jobID album, Ok tt)
  end.

(** *** [processZip]

    The upload stream, and the zip writer on top of it, are named by the key
    of the object they write. *)

Definition addFile (s : ZipService) (zipWriter : string) (key : string)
  : M (Result unit) :=
  let imageName := filepath.Base key in
  slog Info "adding image to zip" ;;;
  src <- call (Get (Bucket (config s)) key) (EGet (Bucket (config s)) key) ;;
  match src with
  | Err err =>
      ret (Err (Sprintf ["failed to get source file from '"; key; "' S3: "; err]))
  | Ok src =>
      dest <- call (zipCreate zipWriter imageName) (EZipCreate zipWriter imageName) ;;
      match dest with
      | Err err =>
          ret (Err (Sprintf ["failed to create file '"; imageName; "' in zip: "; err]))
      | Ok _ =>
          copied <- call (ioCopy zipWriter imageName (s3.GetObjectResponse.Body src))
                         (ECopy zipWriter imageName) ;;
          (* defer src.Body.Close() *)
          emit (EBodyClose key) ;;;
          match copied with
          | Err err =>
              ret (Err (Sprintf ["failed to copy file '"; imageName; "' to zip: "; err]))
          | Ok _ => ret (Ok tt)
          end
      end
  end.

Fixpoint addFiles (s : ZipService) (zipWriter : string) (objects : list s3.Object.t)
  : M unit :=
  match objects with
  | [] => ret tt
  | img :: rest =>
      err <- addFile s zipWriter (s3.Object.Key img) ;;
      match err with
      | Err _ =>
          slog Error "failed to add image to zip" ;;;
          addFiles s zipWriter rest   (* continue *)
      | Ok _ => addFiles s zipWriter rest
      end
  end.

Definition processZip (s : ZipService) (zipKey zipFilename : string)
           (album : Album.t) (client : Client.t) : M unit :=
  slog Info "starting zip creation process with io.Pipe" ;;;
  let originalsKey :=
    filepath.Join [ClientPhotoFolder (config s);
                   fmt.Sprint_uint (Album.ClientID album);
                   fmt.Sprint_uint (Album.ID album);
                   "originals"] in
  stream <- call (PutStream (Bucket (config s)) zipKey "application/zip")
                 (EPutStream (Bucket (config s)) zipKey "application/zip") ;;
  match stream with
  | Err _ => slog Error "failed to setup s3 stream"
  | Ok _ =>
  listResponse <- call (List (Bucket (config s)) originalsKey [s3.WithGetAll])
                       (EList (Bucket (config s)) originalsKey [s3.WithGetAll]) ;;
  match listResponse with
  | Err _ => slog Error "error listing album images"
  | Ok objects =>
  addFiles s zipKey objects ;;;
  closed <- call (zipClose zipKey) (EZipClose zipKey) ;;
  match closed with
  | Err _ => slog Error "failed to close zip writer"
  | Ok _ =>
  closed <- call (streamClose zipKey) (EStreamClose zipKey) ;;
  match closed with
  | Err _ => slog Error "failed to close s3 stream writer"
  | Ok _ =>
  waited <- call (streamWait zipKey) (EStreamWait zipKey) ;;
  match waited with
  | Err _ => slog Error "failed to wait for s3 stream"
  | Ok _ =>
  slog Info "finished uploading zip file to S3" ;;;
  (* Generate download URL *)
  let data :=
    {| downloadURL := Sprintf [BaseDownloadURL (config s); "/client/downloads/";
                               zipFilename];
       name := Client.Name client;
       albumName := Album.Name album;
       expirationDays := ExpirationDays (config s);
       toName := None |} in
  err <- SendEmail (EmailApiKey (config s)) (Client.Name client)
                   (Client.Email client) (FromName (config s))
                   (FromEmail (config s)) data ;;
  match err with
  | Err _ => slog Error "failed to send email notification"
  | Ok _ => slog Info "zip creation completed successfully"
  end end end end end end.

(** *** [cleanupExpiredZips] *)

Fixpoint cleanupFiles (s : ZipService) (cutoffTime : time.Time)
         (files : list s3.Object.t) (removedCount : Z) : M Z :=
  match files with
  | [] => ret removedCount
  | file :: rest =>
      (* Only process zip files *)
      if negb (strings.HasSuffix (strings.ToLower (s3.Object.Key file)) ".zip")
      then cleanupFiles s cutoffTime rest removedCount
      else
        (* Check if the file is older than the cutoff time *)
        if time.Before (s3.Object.LastModified file) cutoffTime
        then
          slog Info "removing expired zip file from S3" ;;;
          r <- call (Delete (Bucket (config s)) [s3.Object.Key file])
                    (EDelete (Bucket (config s)) [s3.Object.Key file]) ;;
          match r with
          | Err _ =>
              slog Error "failed to remove expired zip file from S3" ;;;
              cleanupFiles s cutoffTime rest removedCount
          | Ok _ => cleanupFiles s cutoffTime rest (removedCount + 1)
          end
        else cleanupFiles s cutoffTime rest removedCount
  end.

Definition downloadsKey (s : ZipService) (album : Album.t) : string :=
  filepath.Join [ClientPhotoFolder (config s);
                 fmt.Sprint_uint (Album.ClientID album);
                 fmt.Sprint_uint (Album.ID album);
                 "downloads"].

Fixpoint cleanupAlbums (s : ZipService) (cutoffTime : time.Time)
         (albums : list Album.t) (removedCount : Z) : M Z :=
  match albums with
  | [] => ret removedCount
  | album :: rest =>
      listResponse <- call (List (Bucket (config s)) (downloadsKey s album) [])
                           (EList (Bucket (config s)) (downloadsKey s album) []) ;;
      match listResponse with
      | Err _ =>
          slog Error "failed to list S3 directory" ;;;
          cleanupAlbums s cutoffTime rest removedCount   (* continue *)
      | Ok objects =>
          (* Check each file *)
          n <- cleanupFiles s cutoffTime objects removedCount ;;
          cleanupAlbums s cutoffTime rest n
      end
  end.

(** The loop over the clients; [None] when the function returned from
    inside the loop. *)
Fixpoint cleanupClients (s : ZipService) (cutoffTime : time.Time)
         (clients : list Client.t) (removedCount : Z) : M (option Z) :=
  match clients with
  | [] => ret (Some removedCount)
  | client :: rest =>
      albums <- call (GetAlbumList (Client.ID client))
                     (EGetAlbumList (Client.ID client)) ;;
      match albums with
      | Err _ =>
          slog Error "error retrieving albums" ;;;
          ret None   (* return *)
      | Ok albums =>
          n <- cleanupAlbums s cutoffTime albums removedCount ;;
          cleanupClients s cutoffTime rest n
      end
  end.

Definition cutoff (s : ZipService) (now : time.Time) : time.Time :=
  AddDate now 0 0 (- ExpirationDays (config s)).

Definition cleanupExpiredZips (s : ZipService) : M unit :=
  slog Info "starting cleanup of expired zip files" ;;;
  (* Calculate the cutoff time *)
  now <- call Now ENow ;;
  let cutoffTime := cutoff s now in
  clients <- call GetAll EGetAll ;;
  match clients with
  | Err _ => slog Error "error retrieving clients from database"
  | Ok clients =>
      removed <- cleanupClients s cutoffTime clients 0 ;;
      match removed with
      | None => ret tt
      | Some _ => slog Info "completed cleanup of expired zip files"
      end
  end.

End ZipServiceCode.

(** *** [StartCleanupRoutine] and [StopCleanupRoutine]

    Both methods have a value receiver, [func (s ZipService) ...]: the
    callee works on its own copy of the struct, and an assignment to a field
    of [s] is not seen by the caller.  So the embedding takes [s] and gives
    back the runtime only. *)

Definition StartCleanupRoutine (s : ZipService) (interval : Z) (rt : Runtime)
  : Runtime :=
  let '(ch, rt) := make_chan rt in
  let s := {| config := config s; cleanupTicker := cleanupTicker s;
              stopCleanup := ch; wg := wg s |} in
  let '(tk, rt) := NewTicker interval rt in
  let s := {| config := config s; cleanupTicker := Some tk;
              stopCleanup := stopCleanup s; wg := wg s |} in
  let rt := wg_Add (wg s) 1 rt in
  let rt := go s rt in
  slog_Info "zip cleanup routine started" rt.

(** The [case <-s.stopCleanup] branch of the goroutine, with its deferred
    [s.wg.Done()]. *)
Definition janitor_exit (g : Goroutine) (rt : Runtime) : Runtime :=
  let rt := match cleanupTicker (captured g) with
            | Some tk => ticker_Stop tk rt
            | None => rt
            end in
  wg_Add (wg (captured g)) (-1) rt.

(** Every live janitor goroutine whose stop channel is closed leaves its
    loop (after the sweep it may be in). *)
Fixpoint drain (gs : list Goroutine) (rt : Runtime) : list Goroutine * Runtime :=
  match gs with
  | [] => ([], rt)
  | g :: rest =>
      if negb (exited g) && chan_closed (stopCleanup (captured g)) rt
      then let '(rest', rt') := drain rest (janitor_exit g rt) in
           ({| captured := captured g; exited := true |} :: rest', rt')
      else let '(rest', rt') := drain rest rt in (g :: rest', rt')
  end.

(** [wg.Wait()]: returns once the counter is zero; [None] when no goroutine
    can ever bring it there. *)
Definition wg_Wait (w : nat) (rt : Runtime) : option Runtime :=
  let '(gs, rt) := drain (goroutines rt) rt in
  let rt := {| chans := chans rt; tickers := tickers rt; wgs := wgs rt;
               goroutines := gs; logs := logs rt |} in
  if nth w (wgs rt) 0 <=? 0 then Some rt else None.

Definition StopCleanupRoutine (s : ZipService) (rt : Runtime) : option Runtime :=
  match cleanupTicker s with
  | Some _ =>
      let rt := close_chan (stopCleanup s) rt in
      match wg_Wait (wg s) rt with
      | Some rt => Some (slog_Info "zip cleanup routine stopped" rt)
      | None => None
      end
  | None => Some rt
  end.

(** ** IEEE 754 binary64, as Go's [float64] *)

Module float64.

Definition prec : Z := 53.
Definition emax : Z := 1024.

(** [float64(n)] for an unsigned [n]: rounded to nearest, ties to even. *)
Definition of_uint (n : Z) : spec_float := binary_normalize prec emax n 0 false.

Definition mul : spec_float -> spec_float -> spec_float := SFmul prec emax.
Definition div : spec_float -> spec_float -> spec_float := SFdiv prec emax.

(** [uint(f)]: the fraction is discarded.  Go leaves the conversion of a
    value that [uint] cannot hold (negative, too large, infinite, NaN) to
    the implementation; negative, infinite and NaN give [0] here, and no
    property below depends on these cases. *)
Definition to_uint (f : spec_float) : Z :=
  match f with
  | S754_finite false m e =>
      if 0 <=? e then Z.pos m * 2 ^ e else Z.pos m / 2 ^ (- e)
  | _ => 0
  end.

End float64.

(** ** [cmd/website/internal/cache] *)

(** [image.Decode], the bounds of an [image.Image], [nfnt/resize.Resize]
    (Lanczos3) and [jpeg.Encode] with its quality. *)
Class Imaging (Image : Type) := {
  Decode : string -> Result Image;
  Dx : Image -> Z;
  Dy : Image -> Z;
  Resize : Z -> Z -> Image -> Image;
  Encode : Image -> Z -> Result string
}.

Record CacheCreatorService := {
  awsBucket : string;
  awsRegion : string;
  clientsPhotoFolder : string;
  homePagePhotoFolder : string;
  maxCacheWorkers : Z
}.

(** [uint(n)] of an [int]. *)
Definition uint (n : Z) : Z := n mod 2 ^ 64.

Definition validExt : list string := [".jpg"; ".jpeg"].

Definition IsInSlice (x : string) (l : list string) : bool :=
  existsb (String.eqb x) l.

Section CacheCode.

Context {W Image : Type}.
Context `{S3 : S3Client W} `{CS : ClientServicer W} `{AS : AlbumServicer W}
        `{PF : Platform W} `{IM : Imaging Image}.

Definition ensureBucketExists (c : CacheCreatorService) (bucketName : string)
  : M (Result unit) :=
  exists_ <- call (BucketExists bucketName) (EBucketExists bucketName) ;;
  match exists_ with
  | Err err =>
      ret (Err (Sprintf ["error ensuring bucket '"; bucketName; "' exists: "; err]))
  | Ok true => ret (Ok tt)
  | Ok false =>
      slog Info "creating bucket" ;;;
      created <- call (CreateBucket bucketName (awsRegion c))
                      (ECreateBucket bucketName (awsRegion c)) ;;
      match created with
      | Err err =>
          ret (Err (Sprintf ["error creating bucket '"; bucketName; "': "; err]))
      | Ok _ => ret (Ok tt)
      end
  end.

(** The two target dimensions [resize] computes. *)
Definition newDimensions (width height maxSize : Z) : Z * Z :=
  if height <? width
  then
    (* Landscape orientation *)
    (maxSize,
     float64.to_uint
       (float64.mul (float64.of_uint height)
          (float64.div (float64.of_uint maxSize) (float64.of_uint width))))
  else
    (* Portrait orientation or square *)
    (float64.to_uint
       (float64.mul (float64.of_uint width)
          (float64.div (float64.of_uint maxSize) (float64.of_uint height))),
     maxSize).

Definition resize (img : Image) (maxSize : Z) : Image :=
  let width := uint (Dx img) in
  let height := uint (Dy img) in
  let '(newWidth, newHeight) := newDimensions width height maxSize in
  Resize newWidth newHeight img.

Definition resizeReader (r : string) (maxSize : Z) : Result Image :=
  match Decode r with
  | Err err => Err (Sprintf ["error decoding image: "; err])
  | Ok img => Ok (resize img maxSize)
  end.

Definition resizeUrl (url : string) (maxSize : Z) : M (Result Image) :=
  response <- call (httpGet url) (EHttpGet url) ;;
  match response with
  | Err err =>
      ret (Err (Sprintf ["error downloading image from '"; url; "': "; err]))
  | Ok (statusCode, body) =>
      if negb (statusCode =? 200)
      then ret (Err (Sprintf ["error downloading image from '"; url; "', status: ";
                              fmt.Sprint_int statusCode]))
      else ret (resizeReader body maxSize)
  end.

Definition thumbnailKey (c : CacheCreatorService) (album : Album.t)
           (originalKey : string) : string :=
  filepath.Join [clientsPhotoFolder c;
                 fmt.Sprint_uint (Album.ClientID album);
                 fmt.Sprint_uint (Album.ID album);
                 "thumbnails";
                 filepath.Base originalKey].

Definition heroKey (c : CacheCreatorService) (album : Album.t) : string :=
  filepath.Join [clientsPhotoFolder c;
                 fmt.Sprint_uint (Album.ClientID album);
                 fmt.Sprint_uint (Album.ID album);
                 "hero-banner";
                 Album.PosterImagePath album].

Definition posterOriginalKey (c : CacheCreatorService) (album : Album.t) : string :=
  filepath.Join [clientsPhotoFolder c;
                 fmt.Sprint_uint (Album.ClientID album);
                 fmt.Sprint_uint (Album.ID album);
                 "originals";
                 Album.PosterImagePath album].

Definition doesThumbnailExist (c : CacheCreatorService) (album : Album.t)
           (original : s3.Object.t) : M bool :=
  let key := thumbnailKey c album (s3.Object.Key original) in
  stat <- call (StatObject (awsBucket c) key) (EStatObject (awsBucket c) key) ;;
  match stat with
  | Err _ =>
      slog Error "error retrieving metadata for thumbnail" ;;;
      ret false
  | Ok None => ret false
  | Ok (Some stat) =>
      if time.Before (s3.ObjectMetadata.LastModified stat)
                     (s3.Object.LastModified original)
      then ret false
      else ret true
  end.

Definition doesHeroExist (c : CacheCreatorService) (album : Album.t) : M bool :=
  heroStat <- call (StatObject (awsBucket c) (heroKey c album))
                   (EStatObject (awsBucket c) (heroKey c album)) ;;
  match heroStat with
  | Err _ =>
      slog Error "error retrieving metadata for hero banner" ;;;
      ret false
  | Ok heroStat =>
      originalStat <- call (StatObject (awsBucket c) (posterOriginalKey c album))
                           (EStatObject (awsBucket c) (posterOriginalKey c album)) ;;
      match originalStat with
      | Err _ =>
          slog Error "error retrieving metadata for original poster image" ;;;
          ret false
      | Ok originalStat =>
          match originalStat, heroStat with
          | Some originalStat, Some heroStat =>
              if time.Before (s3.ObjectMetadata.LastModified heroStat)
                             (s3.ObjectMetadata.LastModified originalStat)
              then ret false
              else ret true
          | _, _ => ret false
          end
      end
  end.

Definition createThumbnail (c : CacheCreatorService) (album : Album.t)
           (originalKey : string) : M (Result unit) :=
  let maxSize := 400 in
  original <- call (Get (awsBucket c) originalKey) (EGet (awsBucket c) originalKey) ;;
  match original with
  | Err err =>
      ret (Err (Sprintf ["error retrieving original image "; originalKey; ": "; err]))
  | Ok original =>
      match resizeReader (s3.GetObjectResponse.Body original) maxSize with
      | Err err => ret (Err (Sprintf ["error resizing image: "; err]))
      | Ok img =>
          match Encode img 85 with
          | Err err =>
              ret (Err (Sprintf ["error encoding image for thumbnail: "; err]))
          | Ok buf =>
              let putKey := thumbnailKey c album originalKey in
              put <- call (Put (awsBucket c) putKey buf) (EPut (awsBucket c) putKey buf) ;;
              match put with
              | Err err =>
                  ret (Err (Sprintf ["error uploading thumbnail to S3: "; err]))
              | Ok _ => ret (Ok tt)
              end
          end
      end
  end.

Definition createHeroBanner (c : CacheCreatorService) (album : Album.t)
  : M (Result unit) :=
  let maxSize := 400 in
  let originalKey := posterOriginalKey c album in
  original <- call (Get (awsBucket c) originalKey) (EGet (awsBucket c) originalKey) ;;
  match original with
  | Err err =>
      ret (Err (Sprintf ["error retrieving original image "; originalKey; ": "; err]))
  | Ok original =>
      match resizeReader (s3.GetObjectResponse.Body original) maxSize with
      | Err err => ret (Err (Sprintf ["error resizing image: "; err]))
      | Ok img =>
          match Encode img 85 with
          | Err err =>
              ret (Err (Sprintf ["error encoding image for hero banner: "; err]))
          | Ok buf =>
              let putKey := heroKey c album in
              put <- call (Put (awsBucket c) putKey buf) (EPut (awsBucket c) putKey buf) ;;
              match put with
              | Err err =>
                  ret (Err (Sprintf ["error uploading hero banner to S3: "; err]))
              | Ok _ => ret (Ok tt)
              end
          end
      end
  end.

Definition imageFilter (key : string) : bool :=
  let ext := strings.ToLower (filepath.Ext key) in
  IsInSlice ext validExt.

Definition originalsKey (c : CacheCreatorService) (album : Album.t) : string :=
  filepath.Join [clientsPhotoFolder c;
                 fmt.Sprint_uint (Album.ClientID album);
                 fmt.Sprint_uint (Album.ID album);
                 "originals"].

Definition albumListOptions : list s3.ListOption :=
  [s3.WithGetUrls; s3.WithGetAll; s3.WithFilter imageFilter;
   s3.WithGetUrlExpiration 30].

Definition getAlbumImageListing (c : CacheCreatorService) (album : Album.t)
  : M (Result (list s3.Object.t)) :=
  response <- call (List (awsBucket c) (originalsKey c album) albumListOptions)
                   (EList (awsBucket c) (originalsKey c album) albumListOptions) ;;
  match response with
  | Err err => ret (Err (Sprintf ["error listing album images: "; err]))
  | Ok objects => ret (Ok objects)
  end.

(** *** The work items of the pool *)

(** [resizeWork] of [updateHomePageCache] *)
Definition resizeWork (c : CacheCreatorService) (original : s3.Object.t)
           (thumbnailKey : string) : M unit :=
  img <- resizeUrl (s3.Object.Url original) 300 ;;
  match img with
  | Err _ => slog Error "error resizing image"
  | Ok img =>
      match Encode img 85 with
      | Err _ => slog Error "error encoding image for thumbnail"
      | Ok buf =>
          put <- call (Put (awsBucket c) thumbnailKey buf)
                      (EPut (awsBucket c) thumbnailKey buf) ;;
          match put with
          | Err _ => slog Error "error uploading resized image"
          | Ok _ => ret tt
          end ;;;
          slog Info "updated home page thumbnail"
      end
  end.

(** The closure submitted for an album's hero banner. *)
Definition heroWork (c : CacheCreatorService) (client : Client.t) (album : Album.t)
  : M unit :=
  fresh <- doesHeroExist c album ;;
  if negb fresh
  then
    slog Info "creating hero banner cache for album..." ;;;
    err <- createHeroBanner c album ;;
    match err with
    | Err _ => slog Error "error creating hero banner for album"
    | Ok _ => ret tt
    end
  else ret tt.

(** The closure submitted for one original of an album. *)
Definition thumbnailWork (c : CacheCreatorService) (client : Client.t)
           (album : Album.t) (imageObj : s3.Object.t) : M unit :=
  fresh <- doesThumbnailExist c album imageObj ;;
  if negb fresh
  then
    slog Info "creating cache item for album..." ;;;
    err <- createThumbnail c album (s3.Object.Key imageObj) ;;
    match err with
    | Err _ => slog Error "error creating cache item for album"
    | Ok _ => ret tt
    end
  else ret tt.

(** *** [updateHomePageCache] *)

Fixpoint checkHomePageImages (c : CacheCreatorService) (originals : list s3.Object.t)
  : M unit :=
  match originals with
  | [] => ret tt
  | original :: rest =>
      let thumbnailKey :=
        filepath.Join [homePagePhotoFolder c; "thumbnail";
                       filepath.Base (s3.Object.Key original)] in
      thumbnailStat <- call (StatObject (awsBucket c) thumbnailKey)
                            (EStatObject (awsBucket c) thumbnailKey) ;;
      match thumbnailStat with
      | Err _ =>
          slog Error "error retrieving metadata for thumbnail" ;;;
          checkHomePageImages c rest   (* continue *)
      | Ok thumbnailStat =>
          match thumbnailStat with
          | Some st =>
              if time.Before (s3.ObjectMetadata.LastModified st)
                             (s3.Object.LastModified original)
              then emit (ESubmit (HomeResizeTask original thumbnailKey))
              else ret tt
          | None => emit (ESubmit (HomeResizeTask original thumbnailKey))
          end ;;;
          checkHomePageImages c rest
      end
  end.

Definition updateHomePageCache (c : CacheCreatorService) : M (Result unit) :=
  let originalsKey := filepath.Join [homePagePhotoFolder c; "original"] in
  originals <- call (List (awsBucket c) originalsKey [s3.WithGetUrls])
                    (EList (awsBucket c) originalsKey [s3.WithGetUrls]) ;;
  match originals with
  | Err err => ret (Err (Sprintf ["error listing home page images: "; err]))
  | Ok originals =>
      slog Info "checking for updated home page images..." ;;;
      checkHomePageImages c originals ;;;
      ret (Ok tt)
  end.

(** *** [CreateCache]

    [pool.Submit] queues a closure; the closures run on the pool's
    workers, concurrently with the scan.  The scan records what it
    submits; [runTask] is what a worker then executes. *)

Fixpoint submitThumbnails (client : Client.t) (album : Album.t)
         (albumImages : list s3.Object.t) : M (W := W) unit :=
  match albumImages with
  | [] => ret tt
  | imageObj :: rest =>
      emit (ESubmit (ThumbnailTask client album imageObj)) ;;;
      submitThumbnails client album rest
  end.

(** The loop over one client's albums; [false] when the function returned
    from inside the loop. *)
Fixpoint cacheAlbums (c : CacheCreatorService) (client : Client.t)
         (albums : list Album.t) : M bool :=
  match albums with
  | [] => ret true
  | album :: rest =>
      emit (ESubmit (HeroTask client album)) ;;;
      albumImages <- getAlbumImageListing c album ;;
      match albumImages with
      | Err _ =>
          slog Error "error retrieving image listing for album" ;;;
          ret false   (* return *)
      | Ok albumImages =>
          submitThumbnails client album albumImages ;;;
          cacheAlbums c client rest
      end
  end.

Fixpoint cacheClients (c : CacheCreatorService) (clients : list Client.t) : M bool :=
  match clients with
  | [] => ret true
  | client :: rest =>
      albums <- call (GetAlbumList (Client.ID client))
                     (EGetAlbumList (Client.ID client)) ;;
      match albums with
      | Err _ =>
          slog Error "error retrieving albums" ;;;
          ret false   (* return *)
      | Ok albums =>
          finished <- cacheAlbums c client albums ;;
          if finished then cacheClients c rest else ret false
      end
  end.

Definition CreateCache (c : CacheCreatorService) : M unit :=
  slog Info "starting cache creation..." ;;;
  err <- ensureBucketExists c (awsBucket c) ;;
  match err with
  | Err _ =>
      slog Error "error ensuring bucket exists. aborting" ;;;
      emit (EExit 1)
  | Ok _ =>
      (* First, retrieve all clients *)
      clients <- call GetAll EGetAll ;;
      match clients with
      | Err _ => slog Error "error retrieving clients from database"
      | Ok clients =>
          slog Info "creating cache for clients..." ;;;
          emit (ENewPool (maxCacheWorkers c)) ;;;
          err <- updateHomePageCache c ;;
          match err with
          | Err _ => slog Error "error updating home page cache"
          | Ok _ => ret tt
          end ;;;
          finished <- cacheClients c clients ;;
          if finished then emit EPoolStopWait else ret tt
      end
  end.

Definition runTask (c : CacheCreatorService) (t : Task) : M unit :=
  match t with
  | HeroTask client album => heroWork c client album
  | ThumbnailTask client album imageObj => thumbnailWork c client album imageObj
  | HomeResizeTask original thumbnailKey => resizeWork c original thumbnailKey
  | ProcessZipTask _ _ _ _ => ret tt
  end.

End CacheCode.

(** ** [clientaccess.DownloadZip] *)

Record ClientAccessController := {
  bucket : string;
  clientPhotoFolder : string
}.

(** What the handler writes to its [http.ResponseWriter]; [Panic] is an
    index out of range. *)
Inductive Response :=
| WriteText (status : Z) (text : string)
| Download (contentType contentDisposition contentLength body : string)
| Panic.

Definition http_StatusBadRequest : Z := 400.
Definition http_StatusNotFound : Z := 404.

(** [parts[len(parts)-1]] *)
Definition last_part (parts : list string) : option string :=
  match parts with
  | [] => None
  | _ => nth_error parts (List.length parts - 1)
  end.

Section ClientAccessCode.

Context {W : Type}.
Context `{S3 : S3Client W} `{PF : Platform W}.

Definition DownloadZip (c : ClientAccessController) (client : Client.t)
           (filename : string) : M Response :=
  (* Sanitize the filename to prevent directory traversal *)
  let filename := filepath.Base filename in
  (* This is brittle. It assumes the album ID is the last part of the
     filename separated by a hyphen. E.g. "My-Album-123.zip" *)
  let parts := strings.Split (strings.TrimSuffix filename ".zip") "-" in
  match last_part parts with
  | None => ret Panic
  | Some part =>
      match strconv.Atoi part with
      | None =>
          slog Error "error parsing album ID from filename" ;;;
          ret (WriteText http_StatusBadRequest "Invalid download link")
      | Some albumID =>
          let zipKey :=
            filepath.Join [clientPhotoFolder c;
                           fmt.Sprint_uint (Client.ID client);
                           fmt.Sprint_int albumID;
                           "downloads";
                           filename] in
          slog Info "serving zip download from S3" ;;;
          object <- call (Get (bucket c) zipKey) (EGet (bucket c) zipKey) ;;
          match object with
          | Err _ =>
              slog Error "error getting zip object from S3" ;;;
              ret (WriteText http_StatusNotFound "Download file not found")
          | Ok object =>
              (* Stream the file to the response *)
              copied <- call (responseCopy (s3.GetObjectResponse.Body object))
                             (EResponseCopy (s3.GetObjectResponse.Body object)) ;;
              match copied with
              | Err _ => slog Error "error streaming zip file"
              | Ok _ => slog Info "zip file download completed"
              end ;;;
              (* defer object.Body.Close() *)
              emit (EBodyClose zipKey) ;;;
              ret (Download "application/zip"
                            (Sprintf ["attachment; filename="; filename])
                            (fmt.Sprint_int (s3.GetObjectResponse.Size object))
                            (s3.GetObjectResponse.Body object))
          end
      end
  end.

End ClientAccessCode.

(** ** A small world to run the code in

    An in-memory object store with a clock, a catalog, an outbox, and a list
    of keys and prefixes on which the store fails.  It instantiates the
    collaborators for the concrete runs below. *)

Module Sim.

Record Stored := { skey : string; smodified : time.Time; sbody : string }.

Record World := {
  objects : list Stored;
  clients : list Client.t;
  albums : list Album.t;
  clock : time.Time;
  failing : list string;
  outbox : list email.Mail
}.

Definition fails (k : string) (w : World) : bool :=
  existsb (String.eqb k) (failing w).

Definition with_objects (w : World) (os : list Stored) : World :=
  {| objects := os; clients := clients w; albums := albums w;
     clock := clock w + 1; failing := failing w; outbox := outbox w |}.

Definition find (k : string) (w : World) : option Stored :=
  List.find (fun o => String.eqb (skey o) k) (objects w).

Definition keep_of (opts : list s3.ListOption) (k : string) : bool :=
  forallb (fun o => match o with s3.WithFilter keep => keep k | _ => true end) opts.

Definition entry (o : Stored) : s3.Object.t :=
  {| s3.Object.Key := skey o; s3.Object.LastModified := smodified o;
     s3.Object.Url := Sprintf ["http://store/"; skey o] |}.

#[global] Instance store : S3Client World := {
  StatObject _ k w :=
    if fails k w then (Err "unavailable", w)
    else (Ok (option_map
                (fun o => {| s3.ObjectMetadata.LastModified := smodified o;
                             s3.ObjectMetadata.Size := Z.of_nat (String.length (sbody o));
                             s3.ObjectMetadata.ContentType := "" |})
                (find k w)), w);
  List _ prefix opts w :=
    if fails prefix w then (Err "unavailable", w)
    else (Ok (map entry
                (filter (fun o => strings.HasPrefix (skey o) prefix
                                  && keep_of opts (skey o))
                        (objects w))), w);
  Get _ k w :=
    if fails k w then (Err "unavailable", w)
    else match find k w with
         | Some o => (Ok {| s3.GetObjectResponse.Body := sbody o;
                            s3.GetObjectResponse.Size := Z.of_nat (String.length (sbody o));
                            s3.GetObjectResponse.ContentType := "" |}, w)
         | None => (Err "NoSuchKey", w)
         end;
  Put _ k data w :=
    if fails k w then (Err "unavailable", w)
    else (Ok tt,
          with_objects w
            (filter (fun o => negb (String.eqb (skey o) k)) (objects w)
             ++ [{| skey := k; smodified := clock w; sbody := data |}]));
  PutStream _ k _ w :=
    if fails k w then (Err "unavailable", w) else (Ok tt, w);
  Delete _ ks w :=
    if existsb (fun k => fails k w) ks then (Err "unavailable", w)
    else (Ok tt,
          with_objects w
            (filter (fun o => negb (existsb (String.eqb (skey o)) ks)) (objects w)));
  BucketExists _ w := (Ok true, w);
  CreateBucket _ _ w := (Ok tt, w)
}.

#[global] Instance clientService : ClientServicer World := {
  GetAll w := (Ok (clients w), w)
}.

#[global] Instance albumService : AlbumServicer World := {
  GetAlbumList clientID w :=
    (Ok (filter (fun a => N.eqb (Album.ClientID a) clientID) (albums w)), w)
}.

(** In UTC a day is 86400 seconds, and [AddDate(0, 0, d)] moves the
    instant by [d] days. *)
#[global] Instance platform : Platform World := {
  Now w := (clock w, w);
  AddDate t _ _ days := t + days * time.day_ns;
  Send _ m w :=
    (Ok tt, {| objects := objects w; clients := clients w; albums := albums w;
               clock := clock w; failing := failing w;
               outbox := outbox w ++ [m] |});
  Execute _ data := Sprintf [albumName data; " "; downloadURL data];
  zipCreate _ _ w := (Ok tt, w);
  ioCopy _ _ _ w := (Ok tt, w);
  zipClose _ w := (Ok tt, w);
  streamClose _ w := (Ok tt, w);
  streamWait _ w := (Ok tt, w);
  httpGet _ w := (Err "no network", w);
  responseCopy _ w := (Ok tt, w)
}.

(** Images are their two dimensions; a body of the form ["WxH"] decodes. *)
#[global] Instance imaging : Imaging (Z * Z) := {
  Decode body :=
    match strings.Split body "x" with
    | [a; b] =>
        match strconv.Atoi a, strconv.Atoi b with
        | Some w, Some h => Ok (w, h)
        | _, _ => Err "image: unknown format"
        end
    | _ => Err "image: unknown format"
    end;
  Dx img := fst img;
  Dy img := snd img;
  Resize w h img :=
    ((if w =? 0 then fst img else w), (if h =? 0 then snd img else h));
  Encode img quality :=
    Ok (Sprintf ["jpeg "; fmt.Sprint_int (fst img); "x"; fmt.Sprint_int (snd img);
                 " q"; fmt.Sprint_int quality])
}.

Definition client (id : N) (name' : string) : Client.t :=
  {| Client.ID := id; Client.Password := ""; Client.Name := name';
     Client.Email := Sprintf [name'; "@example.com"] |}.

Definition album (id clientID : N) (name' poster : string) : Album.t :=
  {| Album.ID := id; Album.Name := name'; Album.PosterImagePath := poster;
     Album.Path := ""; Album.ClientID := clientID; Album.ShootDate := 0;
     Album.PosterYPos := "" |}.

Definition world (os : list Stored) (cs : list Client.t) (als : list Album.t)
           (now : time.Time) (bad : list string) : World :=
  {| objects := os; clients := cs; albums := als; clock := now;
     failing := bad; outbox := [] |}.

Definition zipConfig (days : Z) : ZipServiceConfig :=
  {| BaseDownloadURL := "http://localhost:8080"; Bucket := "photos";
     ClientPhotoFolder := "clients"; ExpirationDays := days;
     EmailApiKey := "key"; FromName := "Adam Presley";
     FromEmail := "noreply@adampresleyphotography.com" |}.

Definition rt0 : Runtime :=
  {| chans := []; tickers := []; wgs := []; goroutines := []; logs := [] |}.

Definition cache : CacheCreatorService :=
  {| awsBucket := "photos"; awsRegion := "us-central-1";
     clientsPhotoFolder := "clients"; homePagePhotoFolder := "home-page";
     maxCacheWorkers := 20 |}.

Definition controller : ClientAccessController :=
  {| bucket := "photos"; clientPhotoFolder := "clients" |}.

End Sim.

(** * Vocabulary of the properties *)

(** ** What a history shows *)

Definition is_log (e : Event) : bool :=
  match e with ELog _ _ => true | _ => false end.

(** The calls of a history: everything but the log lines. *)
Definition calls (tr : list Event) : list Event :=
  filter (fun e => negb (is_log e)) tr.

(** The mails of a history. *)
Definition sent (tr : list Event) : list email.Mail :=
  flat_map (fun e => match e with ESend _ m _ => [m] | _ => [] end) tr.


(** The keys the history asked the store to delete, the successful listings
    it obtained, the prefixes it listed, and the albums the catalog
    returned. *)
Definition deleted (tr : list Event) : list string :=
  flat_map (fun e => match e with EDelete _ keys _ => keys | _ => [] end) tr.

Definition listed (tr : list Event) : list (list s3.Object.t) :=
  flat_map (fun e => match e with EList _ _ _ (Ok objects) => [objects] | _ => [] end) tr.

Definition list_keys (tr : list Event) : list string :=
  flat_map (fun e => match e with EList _ key _ _ => [key] | _ => [] end) tr.

Definition catalog (tr : list Event) : list Album.t :=
  flat_map (fun e => match e with EGetAlbumList _ (Ok albums) => albums | _ => [] end) tr.



(** Of a history: the keys fetched, those fetched successfully, the zip
    entries begun, those begun successfully, and the entries copied into. *)
Definition fetched (tr : list Event) : list string :=
  flat_map (fun e => match e with EGet _ key _ => [key] | _ => [] end) tr.

Definition fetched_ok (tr : list Event) : list string :=
  flat_map (fun e => match e with EGet _ key (Ok _) => [key] | _ => [] end) tr.

Definition created (tr : list Event) : list string :=
  flat_map (fun e => match e with EZipCreate _ name' _ => [name'] | _ => [] end) tr.

Definition created_ok (tr : list Event) : list string :=
  flat_map (fun e => match e with EZipCreate _ name' (Ok _) => [name'] | _ => [] end) tr.

Definition copied (tr : list Event) : list string :=
  flat_map (fun e => match e with ECopy _ name' _ => [name'] | _ => [] end) tr.

Definition copied_ok (tr : list Event) : list string :=
  flat_map (fun e => match e with ECopy _ name' (Ok _) => [name'] | _ => [] end) tr.

(** The images the loop of [processZip] gave up on, one log line each. *)
Definition skipped (tr : list Event) : list Event :=
  filter (fun e => match e with
                   | ELog Error msg => String.eqb msg "failed to add image to zip"
                   | _ => false
                   end) tr.

Definition submitted (tr : list Event) : list Task :=
  flat_map (fun e => match e with ESubmit t => [t] | _ => [] end) tr.

Definition asked_clients (tr : list Event) : list N :=
  flat_map (fun e => match e with EGetAlbumList id _ => [id] | _ => [] end) tr.

Definition is_pool_wait (e : Event) : bool :=
  match e with EPoolStopWait => true | _ => false end.


Definition served (r : Response) : Prop :=
  exists contentType contentDisposition contentLength body,
    r = Download contentType contentDisposition contentLength body.

(** ** Names and file names *)

(** Every space becomes a hyphen; all other bytes are kept. *)
Fixpoint hyphenate (s : string) : string :=
  match s with
  | EmptyString => EmptyString
  | String c r => String (if Ascii.eqb c " " then "-"%char else c) (hyphenate r)
  end.



(** The text after the last hyphen of the file name, [.zip] removed. *)
Definition trailing_segment (filename : string) : option string :=
  last_part (strings.Split (strings.TrimSuffix (filepath.Base filename) ".zip") "-").

(** The segment parses, and as a positive number. *)
Definition positive_integer (part : string) : Prop :=
  exists n, strconv.Atoi part = Some n /\ 0 < n.

Fixpoint no_hyphen (s : string) : Prop :=
  match s with
  | EmptyString => True
  | String c r => c <> "-"%char /\ no_hyphen r
  end.

(** ** Target sizes *)



(** ** Catalogs and stores of the concrete runs *)

Definition spring_album : Album.t := Sim.album 7 3 "Spring Shoot" "a.jpg".
Definition carol : Client.t := Sim.client 3 "Carol".

(** Three originals; the store fails on the second one. *)
Definition spring_world : Sim.World :=
  Sim.world [{| Sim.skey := "clients/3/7/originals/a.jpg"; Sim.smodified := 10;
                Sim.sbody := "600x400" |};
             {| Sim.skey := "clients/3/7/originals/b.jpg"; Sim.smodified := 10;
                Sim.sbody := "400x600" |};
             {| Sim.skey := "clients/3/7/originals/c.jpg"; Sim.smodified := 10;
                Sim.sbody := "97x97" |}]
            [carol] [spring_album] 20 ["clients/3/7/originals/b.jpg"].

Definition dave : Client.t := Sim.client 4 "Dave".
Definition summer_album : Album.t := Sim.album 8 3 "Summer" "s.jpg".
Definition dave_album : Album.t := Sim.album 9 4 "Wedding" "w.jpg".

(** Two clients, three albums with one original each; [bad] are the
    prefixes the store cannot list. *)
Definition two_clients_world (bad : list string) : Sim.World :=
  Sim.world [{| Sim.skey := "clients/3/7/originals/a.jpg"; Sim.smodified := 10;
                Sim.sbody := "600x400" |};
             {| Sim.skey := "clients/3/8/originals/s.jpg"; Sim.smodified := 10;
                Sim.sbody := "600x400" |};
             {| Sim.skey := "clients/4/9/originals/w.jpg"; Sim.smodified := 10;
                Sim.sbody := "600x400" |}]
            [carol; dave] [spring_album; summer_album; dave_album] 20 bad.

Definition original_of (k : string) : s3.Object.t :=
  {| s3.Object.Key := k; s3.Object.LastModified := 10;
     s3.Object.Url := Sprintf ["http://store/"; k] |}.

(** An archive stored under album number 0 of client 3. *)
Definition album_zero_world : Sim.World :=
  Sim.world [{| Sim.skey := "clients/3/0/downloads/a-0.zip"; Sim.smodified := 10;
                Sim.sbody := "PK" |}]
            [carol] [spring_album] 20 [].

(** ** Vocabulary of the further properties *)

(** The upload was acknowledged by the store. *)
Definition acknowledged (tr : list Event) : bool :=
  existsb (fun e => match e with EStreamWait _ (Ok _) => true | _ => false end) tr.

(** The source bodies a history closed. *)
Definition closed (tr : list Event) : list string :=
  flat_map (fun e => match e with EBodyClose key => [key] | _ => [] end) tr.

(** The events of the loop of [processZip] over the originals. *)
Definition is_loop_event (e : Event) : bool :=
  match e with
  | EGet _ _ _ | EZipCreate _ _ _ | ECopy _ _ _ | EBodyClose _ => true
  | _ => false
  end.

(** The keys the store did delete. *)
Definition deleted_ok (tr : list Event) : list string :=
  flat_map (fun e => match e with EDelete _ keys (Ok _) => keys | _ => [] end) tr.

(** The sweep logged its completion; a catalog call for a client's albums
    failed. *)
Definition finished (tr : list Event) : bool :=
  existsb (fun e => match e with
                    | ELog Info msg => String.eqb msg "completed cleanup of expired zip files"
                    | _ => false
                    end) tr.

Definition catalog_failed (tr : list Event) : bool :=
  existsb (fun e => match e with EGetAlbumList _ (Err _) => true | _ => false end) tr.

(** What the loops over one client's albums and files may record. *)
Definition is_album_event (e : Event) : bool :=
  match e with
  | ELog Info msg => negb (String.eqb msg "completed cleanup of expired zip files")
  | ELog Error _ | EList _ _ _ _ | EDelete _ _ _ => true
  | _ => false
  end.

(** ** The scan of the cache builder *)

(** The objects a history asked the store about, each with the answer. *)
Definition stats (tr : list Event)
  : list (string * Result (option s3.ObjectMetadata.t)) :=
  flat_map (fun e => match e with EStatObject _ key r => [(key, r)] | _ => [] end) tr.

Definition answers (tr : list Event) : list (Result (option s3.ObjectMetadata.t)) :=
  map snd (stats tr).

(** Where the thumbnail of a home-page original is kept. *)
Definition home_thumbnail_key (c : CacheCreatorService) (original : s3.Object.t)
  : string :=
  filepath.Join [homePagePhotoFolder c; "thumbnail";
                 filepath.Base (s3.Object.Key original)].

(** What an answer of the store about a thumbnail means for its original:
    a thumbnail that is missing or older is made again. *)
Definition needs_resize (original : s3.Object.t)
           (answer : Result (option s3.ObjectMetadata.t)) : bool :=
  match answer with
  | Err _ => false
  | Ok None => true
  | Ok (Some st) =>
      time.Before (s3.ObjectMetadata.LastModified st) (s3.Object.LastModified original)
  end.

Definition home_tasks (c : CacheCreatorService) (originals : list s3.Object.t)
           (answers : list (Result (option s3.ObjectMetadata.t))) : list Task :=
  flat_map (fun '(original, answer) =>
              if needs_resize original answer
              then [HomeResizeTask original (home_thumbnail_key c original)]
              else [])
           (combine originals answers).

(** The uploads of a history: bucket and key. *)
Definition puts (tr : list Event) : list (string * string) :=
  flat_map (fun e => match e with EPut b key _ _ => [(b, key)] | _ => [] end) tr.

(** What the scan of [CreateCache] records: questions to the store and to
    the catalog, log lines, and what it does with the pool. *)
Definition is_scan_event (e : Event) : bool :=
  match e with
  | ELog _ _ | EBucketExists _ _ | ECreateBucket _ _ _ | EGetAll _
  | EGetAlbumList _ _ | EList _ _ _ _ | EStatObject _ _ _
  | ENewPool _ | ESubmit _ | EPoolStopWait | EExit _ => true
  | _ => false
  end.

(** What the loops of the scan record. *)
Definition is_loop_scan_event (e : Event) : bool :=
  match e with
  | ELog _ _ | EGetAlbumList _ _ | EList _ _ _ _ | EStatObject _ _ _
  | ESubmit _ => true
  | _ => false
  end.

Definition is_exit (e : Event) : bool :=
  match e with EExit _ => true | _ => false end.

Definition is_new_pool (e : Event) : bool :=
  match e with ENewPool _ => true | _ => false end.

(** The bucket could not be checked, or could not be created. *)
Definition bucket_failed (tr : list Event) : bool :=
  existsb (fun e => match e with
                    | EBucketExists _ (Err _) | ECreateBucket _ _ (Err _) => true
                    | _ => false
                    end) tr.

(** The log lines after which [CreateCache] stops. *)
Definition abort_messages : list string :=
  ["error ensuring bucket exists. aborting";
   "error retrieving clients from database";
   "error retrieving albums";
   "error retrieving image listing for album"].

Definition is_abort_log (e : Event) : bool :=
  match e with
  | ELog Error msg => existsb (String.eqb msg) abort_messages
  | _ => false
  end.

Definition aborted (tr : list Event) : bool := existsb is_abort_log tr.

(** An album the scan came to, with its client and the images the store
    listed for it, and the work submitted for it. *)
Definition Visit : Type := Client.t * Album.t * list s3.Object.t.

Definition visit_client (v : Visit) : Client.t := fst (fst v).
Definition visit_album (v : Visit) : Album.t := snd (fst v).
Definition visit_images (v : Visit) : list s3.Object.t := snd v.

Definition tasks_of (v : Visit) : list Task :=
  HeroTask (visit_client v) (visit_album v)
  :: map (ThumbnailTask (visit_client v) (visit_album v)) (visit_images v).

(** What the check of the bucket records. *)
Definition is_bucket_event (e : Event) : bool :=
  match e with
  | ELog Info _ | EBucketExists _ _ | ECreateBucket _ _ _ => true
  | _ => false
  end.

(** * Properties *)

(** ** The library models on examples *)

Example ToLower_ex : strings.ToLower "Album-7.ZIP" = "album-7.zip".
Proof. reflexivity. Qed.

Example ReplaceAll_ex : strings.ReplaceAll "a  b c" " " "-" = "a--b-c".
Proof. reflexivity. Qed.

Example ReplaceAll_long_ex : strings.ReplaceAll "aaaa" "aa" "b" = "bb".
Proof. reflexivity. Qed.

Example Split_ex : strings.Split "My-Album--123" "-" = ["My"; "Album"; ""; "123"].
Proof. reflexivity. Qed.

Example Split_none_ex : strings.Split "" "-" = [""].
Proof. reflexivity. Qed.

Example TrimSuffix_ex : strings.TrimSuffix "My-Album-123.zip" ".zip" = "My-Album-123".
Proof. reflexivity. Qed.

Example Atoi_ex :
  map strconv.Atoi ["123"; "0"; "+7"; "-7"; ""; "+"; "12a"; "9223372036854775807";
                    "9223372036854775808"; "-9223372036854775808"]
  = [Some 123; Some 0; Some 7; Some (-7); None; None; None;
     Some 9223372036854775807; None; Some (-9223372036854775808)].
Proof. reflexivity. Qed.

Example Base_ex :
  map filepath.Base [""; "/"; "///"; "a/b/c.jpg"; "a/b/"; "x.zip"; "../../etc/passwd"]
  = ["."; "/"; "/"; "c.jpg"; "b"; "x.zip"; "passwd"].
Proof. reflexivity. Qed.

Example Ext_ex :
  map filepath.Ext ["a/b/c.JPG"; "a.b/c"; "c.tar.gz"; "noext"; "a/.hidden"]
  = [".JPG"; ""; ".gz"; ""; ".hidden"].
Proof. reflexivity. Qed.

Example Join_ex :
  map filepath.Join [["clients"; "3"; "7"; "downloads"; "Spring-Shoot-7.zip"];
                     ["clients"; ""; "x"]; ["a/"; "/b"]; ["a"; ".."; "b"]; [""; ""];
                     ["/a"; "../.."; "b"]]
  = ["clients/3/7/downloads/Spring-Shoot-7.zip"; "clients/x"; "a/b"; "b"; "";
     "/b"].
Proof. reflexivity. Qed.

Example Sprint_ex : (fmt.Sprint_uint 0, fmt.Sprint_uint 42, fmt.Sprint_int (-5))
                    = ("0", "42", "-5").
Proof. reflexivity. Qed.

Example float64_ex :
  float64.to_uint (float64.mul (float64.of_uint 97)
                     (float64.div (float64.of_uint 400) (float64.of_uint 97))) = 399
  /\ float64.to_uint (float64.mul (float64.of_uint 100)
                     (float64.div (float64.of_uint 400) (float64.of_uint 200))) = 200
  /\ float64.to_uint (float64.mul (float64.of_uint 1)
                     (float64.div (float64.of_uint 400) (float64.of_uint 1000))) = 0.
Proof. vm_compute. auto. Qed.

(** ** Reasoning about effects *)

Section EffectLaws.

Context {W : Type}.
Implicit Types w : W.

Lemma val_bind {A B} (m : M A) (k : A -> M B) w :
  val (bind m k w) = val (k (val (m w)) (after (m w))).
Proof.
  unfold bind, val, after. destruct (m w) as [[a w1] t1]; simpl.
  now destruct (k a w1) as [[b w2] t2].
Qed.

Lemma after_bind {A B} (m : M A) (k : A -> M B) w :
  after (bind m k w) = after (k (val (m w)) (after (m w))).
Proof.
  unfold bind, val, after. destruct (m w) as [[a w1] t1]; simpl.
  now destruct (k a w1) as [[b w2] t2].
Qed.

Lemma events_bind {A B} (m : M A) (k : A -> M B) w :
  events (bind m k w)
  = events (m w) ++ events (k (val (m w)) (after (m w))).
Proof.
  unfold bind, val, after, events. destruct (m w) as [[a w1] t1]; simpl.
  now destruct (k a w1) as [[b w2] t2].
Qed.

Lemma val_call {A} (op : W -> A * W) ev w : val (call op ev w) = fst (op w).
Proof. unfold call, val. now destruct (op w). Qed.

Lemma after_call {A} (op : W -> A * W) ev w : after (call op ev w) = snd (op w).
Proof. unfold call, after. now destruct (op w). Qed.

Lemma events_call {A} (op : W -> A * W) ev w :
  events (call op ev w) = [ev (fst (op w))].
Proof. unfold call, events. now destruct (op w). Qed.

Lemma val_ret {A} (a : A) w : val (ret a w) = a.
Proof. reflexivity. Qed.

Lemma after_ret {A} (a : A) w : after (ret a w) = w.
Proof. reflexivity. Qed.

Lemma events_ret {A} (a : A) w : events (ret a w) = [].
Proof. reflexivity. Qed.

Lemma after_emit e w : after (emit e w) = w.
Proof. reflexivity. Qed.

Lemma events_emit e w : events (emit e w) = [e].
Proof. reflexivity. Qed.

Lemma after_slog lvl msg w : after (slog lvl msg w) = w.
Proof. reflexivity. Qed.

Lemma events_slog lvl msg w : events (slog lvl msg w) = [ELog lvl msg].
Proof. reflexivity. Qed.

End EffectLaws.

Create Rewrite HintDb effects.

#[export] Hint Rewrite @val_bind @after_bind @events_bind @val_call @after_call
  @events_call @val_ret @after_ret @events_ret @after_emit @events_emit
  @after_slog @events_slog : effects.

(** Push [val], [after] and [events] through the combinators. *)
Ltac eff := repeat (autorewrite with effects; cbv beta).

(** ** Histories *)

Lemma calls_app (a b : list Event) : calls (a ++ b) = calls a ++ calls b.
Proof. apply filter_app. Qed.

(** ** The job identifier *)

Lemma replace_space_hyphen (s : string) :
  strings.ReplaceAll s " " "-" = hyphenate s.
Proof.
  unfold strings.ReplaceAll.
  induction s as [|c r IH]; [reflexivity|].
  cbn [strings.replace_from strings.HasPrefix hyphenate].
  rewrite (Ascii.eqb_sym " " c).
  destruct (Ascii.eqb c " "); cbn; now rewrite IH.
Qed.

Lemma Sprintf3 (a b c : string) : Sprintf [a; b; c] = (a ++ b ++ c)%string.
Proof. reflexivity. Qed.

Section ZipServiceFacts.

Context {W : Type}.
Context `{S3 : S3Client W} `{CS : ClientServicer W} `{AS : AlbumServicer W}
        `{PF : Platform W}.

Lemma CreateZipAsync_jobID (s : ZipService) album client (w : W) :
  fst (val (CreateZipAsync s album client w)) = jobID album.
Proof.
  unfold CreateZipAsync, SendEmail. eff.
  destruct (fst (StatObject _ _ w)) as [[objectData|]|e]; eff; try reflexivity.
  destruct (fst (Send _ _ _)); eff; reflexivity.
Qed.

End ZipServiceFacts.

(** C7. The job id returned by [CreateZipAsync] is the album name with every
    space replaced by a hyphen, then a hyphen, then the album id in decimal;
    the archive file name is the job id followed by [.zip]; the album
    "Spring Shoot" with id 7 gives "Spring-Shoot-7". *)
Theorem job_id_is_hyphenated_name_and_id :
  forall (W : Type) (S3 : S3Client W) (PF : Platform W)
         (s : ZipService) (album : Album.t) (client : Client.t) (w : W),
    fst (val (CreateZipAsync s album client w))
    = (hyphenate (Album.Name album) ++ "-"
       ++ NilEmpty.string_of_uint (N.to_uint (Album.ID album)))%string
    /\ zipFilename album
       = (fst (val (CreateZipAsync s album client w)) ++ ".zip")%string
    /\ (forall poster path clientID shoot ypos,
          let spring := {| Album.ID := 7; Album.Name := "Spring Shoot";
                           Album.PosterImagePath := poster; Album.Path := path;
                           Album.ClientID := clientID; Album.ShootDate := shoot;
                           Album.PosterYPos := ypos |} in
          fst (val (CreateZipAsync s spring client w)) = "Spring-Shoot-7"
          /\ zipFilename spring = "Spring-Shoot-7.zip").
Proof.
  intros. rewrite !CreateZipAsync_jobID. repeat split.
  - unfold jobID. now rewrite Sprintf3, replace_space_hyphen.
  - rewrite CreateZipAsync_jobID. reflexivity.
Qed.

(** ** Re-requesting an archive that exists *)

(** C2. When the existence check finds the archive, [CreateZipAsync] makes
    exactly two calls, the check and the notification mail to the client: no
    upload stream, no listing, no zip entry, no background job.  It returns
    the job id, with the outcome of the mail. *)
Theorem existing_archive_is_not_rebuilt :
  forall (W : Type) (S3 : S3Client W) (PF : Platform W)
         (s : ZipService) (album : Album.t) (client : Client.t) (w : W)
         (objectData : s3.ObjectMetadata.t),
    fst (StatObject (Bucket (config s)) (zipKey s album client) w)
    = Ok (Some objectData) ->
    exists mail r,
      calls (events (CreateZipAsync s album client w))
      = [EStatObject (Bucket (config s)) (zipKey s album client) (Ok (Some objectData));
         ESend (EmailApiKey (config s)) mail r]
      /\ email.To mail = [{| email.Email := Client.Email client;
                             email.Name := Client.Name client |}]
      /\ email.Body mail
         = Execute tmpl {| downloadURL := downloadURL (notification s album client);
                           name := Client.Name client;
                           albumName := Album.Name album;
                           expirationDays := ExpirationDays (config s);
                           toName := Some (Client.Name client) |}
      /\ val (CreateZipAsync s album client w) = (jobID album, r).
Proof.
  intros W S3 PF s album client w objectData Hstat.
  unfold CreateZipAsync, SendEmail. eff. rewrite Hstat. eff.
  match goal with
  | |- context [fst (Send ?k ?m ?w')] =>
      exists m, (fst (Send k m w')); destruct (fst (Send k m w')) as [[]|e]
  end; eff; simpl; auto.
Qed.

Lemma existing_archive_is_not_rebuilt_witness :
  let s := fst (NewZipService (Sim.zipConfig 7) Sim.rt0) in
  let album := Sim.album 7 3 "Spring Shoot" "a.jpg" in
  let client := Sim.client 3 "Carol" in
  let w := Sim.world [{| Sim.skey := "clients/3/7/downloads/Spring-Shoot-7.zip";
                         Sim.smodified := 5; Sim.sbody := "PK" |}]
                     [client] [album] 10 [] in
  exists mail r,
    calls (events (CreateZipAsync s album client w))
    = [EStatObject "photos" "clients/3/7/downloads/Spring-Shoot-7.zip"
         (Ok (Some {| s3.ObjectMetadata.LastModified := 5;
                      s3.ObjectMetadata.Size := 2;
                      s3.ObjectMetadata.ContentType := "" |}));
       ESend "key" mail r]
    /\ val (CreateZipAsync s album client w) = ("Spring-Shoot-7", r).
Proof.
  intros s album client w.
  assert (Hstat : fst (StatObject (Bucket (config s)) (zipKey s album client) w)
                  = Ok (Some {| s3.ObjectMetadata.LastModified := 5;
                                s3.ObjectMetadata.Size := 2;
                                s3.ObjectMetadata.ContentType := "" |}))
    by (vm_compute; reflexivity).
  destruct (existing_archive_is_not_rebuilt Sim.World _ _ s album client w _ Hstat)
    as (mail & r & Hcalls & _ & _ & Hval).
  exists mail, r. split; [exact Hcalls | exact Hval].
Defined.

(** ** The retention window *)

Lemma sent_app (a b : list Event) : sent (a ++ b) = sent a ++ sent b.
Proof. apply flat_map_app. Qed.

(** Split on the outcome the goal is blocked on. *)
Ltac next_case :=
  match goal with
  | |- context [match ?x with _ => _ end] => destruct x eqn:?
  end; eff.

Section RetentionFacts.

Context {W : Type}.
Context `{S3 : S3Client W} `{CS : ClientServicer W} `{AS : AlbumServicer W}
        `{PF : Platform W}.

Lemma addFile_sent (s : ZipService) zw key (w : W) :
  sent (events (addFile s zw key w)) = [].
Proof.
  unfold addFile. eff. repeat next_case; reflexivity.
Qed.

Lemma addFiles_sent (s : ZipService) zw objects :
  forall w : W, sent (events (addFiles s zw objects w)) = [].
Proof.
  induction objects as [|img rest IH]; intro w; [reflexivity|].
  cbn [addFiles]. eff. rewrite sent_app, addFile_sent.
  next_case; rewrite ?sent_app, IH; reflexivity.
Qed.

Lemma SendEmail_sent apiKey toName' toEmail fromName fromEmail data (w : W) :
  exists data',
    sent (events (SendEmail apiKey toName' toEmail fromName fromEmail data w))
    = [{| email.Body := Execute tmpl data';
          email.BodyIsHtml := true;
          email.From := {| email.Email := fromEmail; email.Name := fromName |};
          email.Subject := "Your photos download is ready!";
          email.To := [{| email.Email := toEmail; email.Name := toName' |}] |}]
    /\ expirationDays data' = expirationDays data.
Proof.
  unfold SendEmail. eff. eexists. split; reflexivity.
Qed.

Lemma CreateZipAsync_sent (s : ZipService) album client (w : W) mail :
  In mail (sent (events (CreateZipAsync s album client w))) ->
  exists data, email.Body mail = Execute tmpl data
               /\ expirationDays data = ExpirationDays (config s).
Proof.
  unfold CreateZipAsync. eff. rewrite sent_app. cbn [sent flat_map app].
  destruct (fst (StatObject _ _ w)) as [[objectData|]|e]; eff;
    try (cbn; tauto).
  rewrite !sent_app. cbn [sent flat_map app].
  match goal with
  | |- context [SendEmail ?k ?n ?e ?fn ?fe ?d ?w'] =>
      destruct (SendEmail_sent k n e fn fe d w') as (data & -> & Hd);
      destruct (val (SendEmail k n e fn fe d w'))
  end; eff; cbn; intros [<-|[]]; exists data; auto.
Qed.

Lemma processZip_sent (s : ZipService) zk zf album client (w : W) mail :
  In mail (sent (events (processZip s zk zf album client w))) ->
  exists data, email.Body mail = Execute tmpl data
               /\ expirationDays data = ExpirationDays (config s).
Proof.
  unfold processZip. eff. rewrite !sent_app. cbn [sent flat_map app].
  destruct (fst (PutStream _ _ _ w)); eff; [|cbn; tauto].
  rewrite !sent_app. cbn [sent flat_map app].
  destruct (fst (List _ _ _ _)); eff; [|cbn; tauto].
  rewrite !sent_app, addFiles_sent. cbn [sent flat_map app].
  destruct (fst (zipClose _ _)); eff; [|cbn; tauto].
  rewrite !sent_app. cbn [sent flat_map app].
  destruct (fst (streamClose _ _)); eff; [|cbn; tauto].
  rewrite !sent_app. cbn [sent flat_map app].
  destruct (fst (streamWait _ _)); eff; [|cbn; tauto].
  rewrite !sent_app. cbn [sent flat_map app].
  match goal with
  | |- context [SendEmail ?k ?n ?e ?fn ?fe ?d ?w'] =>
      destruct (SendEmail_sent k n e fn fe d w') as (data & -> & Hd);
      destruct (val (SendEmail k n e fn fe d w'))
  end; eff; cbn; intros [<-|[]]; exists data; auto.
Qed.

End RetentionFacts.

(** C10. [NewZipService] keeps a positive [ExpirationDays] and replaces any
    other value by 7; so the retention held by the service is positive, and
    it is the one the cleanup cutoff and every notification mail of
    [CreateZipAsync] and [processZip] are computed from. *)
Theorem retention_defaults_to_seven_days :
  forall (W : Type) (S3 : S3Client W) (PF : Platform W)
         (cfg : ZipServiceConfig) (rt : Runtime),
    let s := fst (NewZipService cfg rt) in
    0 < ExpirationDays (config s)
    /\ (ExpirationDays cfg <= 0 -> ExpirationDays (config s) = 7)
    /\ (0 < ExpirationDays cfg -> config s = cfg)
    /\ (forall now, cutoff s now = AddDate now 0 0 (- ExpirationDays (config s)))
    /\ (forall album client (w : W) mail,
          In mail (sent (events (CreateZipAsync s album client w))) ->
          exists data, email.Body mail = Execute tmpl data
                       /\ expirationDays data = ExpirationDays (config s))
    /\ (forall zk zf album client (w : W) mail,
          In mail (sent (events (processZip s zk zf album client w))) ->
          exists data, email.Body mail = Execute tmpl data
                       /\ expirationDays data = ExpirationDays (config s)).
Proof.
  intros W S3 PF cfg rt s.
  assert (Hs : config s = if ExpirationDays cfg <=? 0
                          then {| BaseDownloadURL := BaseDownloadURL cfg;
                                  Bucket := Bucket cfg;
                                  ClientPhotoFolder := ClientPhotoFolder cfg;
                                  ExpirationDays := 7;
                                  EmailApiKey := EmailApiKey cfg;
                                  FromName := FromName cfg;
                                  FromEmail := FromEmail cfg |}
                          else cfg) by reflexivity.
  split; [|split; [|split; [|split; [|split]]]].
  - rewrite Hs. destruct (Z.leb_spec (ExpirationDays cfg) 0); simpl; lia.
  - intro H. rewrite Hs. destruct (Z.leb_spec (ExpirationDays cfg) 0); simpl; lia.
  - intro H. rewrite Hs. destruct (Z.leb_spec (ExpirationDays cfg) 0); [lia|reflexivity].
  - reflexivity.
  - intros album client w mail. apply CreateZipAsync_sent.
  - intros zk zf album client w mail. apply processZip_sent.
Qed.

Lemma retention_defaults_to_seven_days_witness :
  ExpirationDays (config (fst (NewZipService (Sim.zipConfig (-3)) Sim.rt0))) = 7
  /\ config (fst (NewZipService (Sim.zipConfig 30) Sim.rt0)) = Sim.zipConfig 30.
Proof.
  split.
  - apply (retention_defaults_to_seven_days Sim.World _ _ (Sim.zipConfig (-3)) Sim.rt0).
    simpl. lia.
  - apply (retention_defaults_to_seven_days Sim.World _ _ (Sim.zipConfig 30) Sim.rt0).
    simpl. lia.
Defined.

(** ** Freshness of derived assets *)

Section FreshnessFacts.

Context {W Image : Type}.
Context `{S3 : S3Client W} `{PF : Platform W} `{IM : Imaging Image}.




Lemma doesThumbnailExist_calls (c : CacheCreatorService) album original (w : W) :
  calls (events (doesThumbnailExist c album original w))
  = [EStatObject (awsBucket c) (thumbnailKey c album (s3.Object.Key original))
       (fst (StatObject (awsBucket c)
               (thumbnailKey c album (s3.Object.Key original)) w))].
Proof.
  unfold doesThumbnailExist. eff.
  destruct (fst (StatObject _ _ w)) as [[stat|]|e]; eff; try reflexivity.
  destruct (time.Before _ _); reflexivity.
Qed.






End FreshnessFacts.



(** Absent, and strictly older, derived objects are regenerated. *)
Example stale_thumbnail_is_regenerated :
  let album := Sim.album 7 3 "Spring Shoot" "a.jpg" in
  let original := {| s3.Object.Key := "clients/3/7/originals/a.jpg";
                     s3.Object.LastModified := 10; s3.Object.Url := "" |} in
  let source := {| Sim.skey := "clients/3/7/originals/a.jpg";
                   Sim.smodified := 10; Sim.sbody := "600x400" |} in
  let older := {| Sim.skey := "clients/3/7/thumbnails/a.jpg";
                  Sim.smodified := 9; Sim.sbody := "jpeg" |} in
  let run os :=
    calls (events (runTask (Image := Z * Z) Sim.cache
                     (ThumbnailTask (Sim.client 3 "Carol") album original)
                     (Sim.world os [] [] 20 []))) in
  map (fun e => match e with EPut _ k d _ => (k, d) | _ => ("", "") end)
      (skipn 2 (run [source; older]))
  = [("clients/3/7/thumbnails/a.jpg", "jpeg 400x266 q85")]
  /\ List.length (run [source]) = 3%nat.
Proof. vm_compute. split; reflexivity. Qed.

(** ** Byte strings: suffixes and case *)













(** ** The cleanup sweep *)

Lemma deleted_app a b : deleted (a ++ b) = deleted a ++ deleted b.
Proof. apply flat_map_app. Qed.

Lemma listed_app a b : listed (a ++ b) = listed a ++ listed b.
Proof. apply flat_map_app. Qed.

Lemma list_keys_app a b : list_keys (a ++ b) = list_keys a ++ list_keys b.
Proof. apply flat_map_app. Qed.

Lemma catalog_app a b : catalog (a ++ b) = catalog a ++ catalog b.
Proof. apply flat_map_app. Qed.

Create Rewrite HintDb history.
#[export] Hint Rewrite deleted_app listed_app list_keys_app catalog_app
  app_nil_r : history.


Section CleanupFacts.

Context {W : Type}.
Context `{S3 : S3Client W} `{CS : ClientServicer W} `{AS : AlbumServicer W}
        `{PF : Platform W}.





End CleanupFacts.



(** ** Building an archive *)

Lemma fetched_app a b : fetched (a ++ b) = fetched a ++ fetched b.
Proof. apply flat_map_app. Qed.

Lemma fetched_ok_app a b : fetched_ok (a ++ b) = fetched_ok a ++ fetched_ok b.
Proof. apply flat_map_app. Qed.

Lemma created_app a b : created (a ++ b) = created a ++ created b.
Proof. apply flat_map_app. Qed.

Lemma created_ok_app a b : created_ok (a ++ b) = created_ok a ++ created_ok b.
Proof. apply flat_map_app. Qed.

Lemma copied_app a b : copied (a ++ b) = copied a ++ copied b.
Proof. apply flat_map_app. Qed.

Lemma copied_ok_app a b : copied_ok (a ++ b) = copied_ok a ++ copied_ok b.
Proof. apply flat_map_app. Qed.

Lemma skipped_app a b : skipped (a ++ b) = skipped a ++ skipped b.
Proof. apply filter_app. Qed.

#[export] Hint Rewrite fetched_app fetched_ok_app created_app created_ok_app
  copied_app copied_ok_app skipped_app map_app length_app : history.

Section ArchiveFacts.

Context {W : Type}.
Context `{S3 : S3Client W} `{PF : Platform W}.

Lemma addFile_history (s : ZipService) zw key (w : W) :
  let tr := events (addFile s zw key w) in
  fetched tr = [key]
  /\ created tr = map filepath.Base (fetched_ok tr)
  /\ copied tr = created_ok tr
  /\ skipped tr = []
  /\ copied_ok tr = (if is_ok (val (addFile s zw key w))
                     then [filepath.Base key] else []).
Proof.
  unfold addFile. cbv zeta. eff.
  destruct (fst (Get _ _ w)); eff; [|repeat split].
  destruct (fst (zipCreate _ _ _)); eff; [|repeat split].
  destruct (fst (ioCopy _ _ _ _)); eff; repeat split.
Qed.

Lemma skipped_failure_log :
  skipped [ELog Error "failed to add image to zip"]
  = [ELog Error "failed to add image to zip"].
Proof. reflexivity. Qed.

Lemma addFiles_history (s : ZipService) zw objects :
  forall w : W,
    let tr := events (addFiles s zw objects w) in
    fetched tr = map s3.Object.Key objects
    /\ created tr = map filepath.Base (fetched_ok tr)
    /\ copied tr = created_ok tr
    /\ List.length objects
       = (List.length (copied_ok tr) + List.length (skipped tr))%nat.
Proof.
  induction objects as [|img rest IH]; intro w; cbn [addFiles].
  - repeat split.
  - cbv zeta. eff.
    destruct (addFile_history s zw (s3.Object.Key img) w) as (Hf & Hc & Hp & Hs & Hk).
    destruct (val (addFile s zw (s3.Object.Key img) w)); eff;
      autorewrite with history;
      match goal with
      | |- context [addFiles s zw rest ?w'] =>
          destruct (IH w') as (-> & -> & -> & Hlen)
      end;
      rewrite Hf, Hc, Hp, Hs, Hk, ?skipped_failure_log;
      cbn [is_ok List.length app copied_ok flat_map];
      repeat split; lia.
Qed.

End ArchiveFacts.

(** C6. Once the upload stream is open and the album is listed, [processZip]
    fetches every listed original, in listing order, whatever happened to
    the ones before it; every original that was fetched gets its entry, and
    every entry that was begun is copied into; each original is either
    copied in full or logged as failed.  After the last original the
    zip writer is closed, then, as long as each step succeeds, the upload
    stream is closed and awaited. *)
Theorem one_failed_image_does_not_stop_the_archive :
  forall (W : Type) (S3 : S3Client W) (PF : Platform W)
         (s : ZipService) (zipKey zipFilename : string)
         (album : Album.t) (client : Client.t) (w : W)
         (objects : list s3.Object.t),
    let originals := filepath.Join [ClientPhotoFolder (config s);
                                    fmt.Sprint_uint (Album.ClientID album);
                                    fmt.Sprint_uint (Album.ID album);
                                    "originals"] in
    is_ok (fst (PutStream (Bucket (config s)) zipKey "application/zip" w)) = true ->
    fst (List (Bucket (config s)) originals [s3.WithGetAll]
              (snd (PutStream (Bucket (config s)) zipKey "application/zip" w)))
    = Ok objects ->
    exists setup loop r rest,
      events (processZip s zipKey zipFilename album client w)
      = setup ++ loop ++ EZipClose zipKey r :: rest
      /\ fetched setup = [] /\ fetched rest = []
      /\ fetched loop = map s3.Object.Key objects
      /\ created loop = map filepath.Base (fetched_ok loop)
      /\ copied loop = created_ok loop
      /\ List.length objects
         = (List.length (copied_ok loop) + List.length (skipped loop))%nat
      /\ (is_ok r = true ->
          exists r2 rest2,
            rest = EStreamClose zipKey r2 :: rest2
            /\ (is_ok r2 = true ->
                exists r3 rest3, rest2 = EStreamWait zipKey r3 :: rest3)).
Proof.
  intros W S3 PF s zipKey zipFilename album client w objects originals Hput Hlist.
  unfold processZip. cbv zeta. fold originals. eff.
  destruct (fst (PutStream _ _ _ w)) as [u|e]; [|discriminate]. eff.
  rewrite Hlist. eff.
  match goal with
  | |- context [addFiles s zipKey objects ?w'] =>
      destruct (addFiles_history s zipKey objects w') as (Hf & Hc & Hp & Hn);
      set (loop := events (addFiles s zipKey objects w')) in *;
      set (w2 := after (addFiles s zipKey objects w'))
  end.
  exists [ELog Info "starting zip creation process with io.Pipe";
          EPutStream (Bucket (config s)) zipKey "application/zip" (Ok u);
          EList (Bucket (config s)) originals [s3.WithGetAll] (Ok objects)],
         loop, (fst (zipClose zipKey w2)).
  eexists. split; [cbn [app]; reflexivity|].
  split; [reflexivity|].
  destruct (fst (zipClose zipKey w2)); eff;
    [|repeat split; auto; discriminate].
  destruct (fst (streamClose zipKey _)) eqn:Hsc; eff.
  - destruct (fst (streamWait zipKey _)) eqn:Hsw; eff.
    + match goal with
      | |- context [SendEmail ?k ?n ?e ?fn ?fe ?d ?w'] =>
          unfold SendEmail; eff;
          destruct (fst (Send k _ w'))
      end; eff; repeat split; auto; intros _; do 2 eexists;
        (split; [cbn [app]; reflexivity|]); intros _; do 2 eexists;
        cbn [app]; reflexivity.
    + repeat split; auto. intros _. do 2 eexists.
      split; [cbn [app]; reflexivity|]. intros _. do 2 eexists.
      cbn [app]. reflexivity.
  - repeat split; auto. intros _. do 2 eexists.
    split; [cbn [app]; reflexivity|]. discriminate.
Qed.

Lemma one_failed_image_does_not_stop_the_archive_witness :
  let s := fst (NewZipService (Sim.zipConfig 7) Sim.rt0) in
  exists setup loop r rest,
    events (processZip s "clients/3/7/downloads/Spring-Shoot-7.zip"
              "Spring-Shoot-7.zip" spring_album carol spring_world)
    = setup ++ loop ++ EZipClose "clients/3/7/downloads/Spring-Shoot-7.zip" r :: rest
    /\ fetched loop = ["clients/3/7/originals/a.jpg"; "clients/3/7/originals/b.jpg";
                       "clients/3/7/originals/c.jpg"].
Proof.
  intro s.
  destruct (one_failed_image_does_not_stop_the_archive Sim.World _ _ s
              "clients/3/7/downloads/Spring-Shoot-7.zip" "Spring-Shoot-7.zip"
              spring_album carol spring_world
              (map Sim.entry (Sim.objects spring_world)))
    as (setup & loop & r & rest & Htr & _ & _ & Hf & _).
  - vm_compute. reflexivity.
  - vm_compute. reflexivity.
  - exists setup, loop, r, rest. split; [exact Htr | exact Hf].
Defined.

(** The same run, observed: the second original has no entry, the third
    has one, and the notification goes out. *)
Example archive_with_one_failed_image :
  let s := fst (NewZipService (Sim.zipConfig 7) Sim.rt0) in
  let out := processZip s "clients/3/7/downloads/Spring-Shoot-7.zip"
               "Spring-Shoot-7.zip" spring_album carol spring_world in
  created (events out) = ["a.jpg"; "c.jpg"]
  /\ copied (events out) = ["a.jpg"; "c.jpg"]
  /\ map email.To (sent (events out))
     = [[{| email.Email := "Carol@example.com"; email.Name := "Carol" |}]].
Proof. vm_compute. repeat split. Qed.

(** ** The sweep of the cache builder *)

Section SweepFacts.

Context {W : Type}.
Context `{S3 : S3Client W} `{CS : ClientServicer W} `{AS : AlbumServicer W}
        `{PF : Platform W}.

(** An album whose listing fails ends the loops over the albums and over the
    clients: nothing is recorded for the albums and clients after it. *)
Lemma failed_listing_ends_the_loops (c : CacheCreatorService) client others
      album rest (w : W) e :
  fst (GetAlbumList (Client.ID client) w) = Ok (album :: rest) ->
  fst (List (awsBucket c) (originalsKey c album) albumListOptions
            (snd (GetAlbumList (Client.ID client) w))) = Err e ->
  val (cacheClients c (client :: others) w) = false
  /\ calls (events (cacheClients c (client :: others) w))
     = [EGetAlbumList (Client.ID client) (Ok (album :: rest));
        ESubmit (HeroTask client album);
        EList (awsBucket c) (originalsKey c album) albumListOptions (Err e)].
Proof.
  intros Halbums Hlist. cbn [cacheClients]. eff. rewrite Halbums. eff.
  cbn [cacheAlbums]. unfold getAlbumImageListing. eff. rewrite Hlist. eff.
  split; reflexivity.
Qed.

End SweepFacts.

(** C5 (the code departs from it). A sweep in which the listing of the
    first album fails: the second album of the same client and the second
    client are never looked at, and the pool is not awaited.  With a
    working store the same catalog gives six work items. *)
Theorem sweep_stops_at_first_failed_album_listing :
  let tr := events (CreateCache Sim.cache
                      (two_clients_world ["clients/3/7/originals"])) in
  submitted tr = [HeroTask carol spring_album]
  /\ asked_clients tr = [3%N]
  /\ list_keys tr = ["home-page/original"; "clients/3/7/originals"]
  /\ existsb is_pool_wait tr = false
  /\ submitted (events (CreateCache Sim.cache (two_clients_world [])))
     = [HeroTask carol spring_album;
        ThumbnailTask carol spring_album (original_of "clients/3/7/originals/a.jpg");
        HeroTask carol summer_album;
        ThumbnailTask carol summer_album (original_of "clients/3/8/originals/s.jpg");
        HeroTask dave dave_album;
        ThumbnailTask dave dave_album (original_of "clients/4/9/originals/w.jpg")].
Proof. vm_compute. repeat split. Qed.

(** ** The janitor's life cycle *)

Lemma set_nth_last {A} (l : list A) (x y : A) :
  set_nth (List.length l) y (l ++ [x]) = l ++ [y].
Proof.
  unfold set_nth.
  rewrite firstn_app, Nat.sub_diag, firstn_all, skipn_app, Nat.sub_diag, skipn_all.
  simpl. now rewrite app_nil_r.
Qed.

(** C4 (the code departs from it). [StartCleanupRoutine] stores the new
    ticker and stop channel in its own copy of the service, so the service
    the caller holds still has no ticker: [StopCleanupRoutine] on it returns
    at once, having closed nothing and waited for nothing, and leaves the
    janitor goroutine alive, its ticker active, its stop channel open and
    the wait group at one.  A service that was never started is left alone
    as well. *)
Theorem stop_after_start_does_nothing :
  forall (cfg : ZipServiceConfig) (interval : Z) (rt : Runtime),
    let s := fst (NewZipService cfg rt) in
    let rt1 := snd (NewZipService cfg rt) in
    let rt2 := StartCleanupRoutine s interval rt1 in
    StopCleanupRoutine s rt1 = Some rt1
    /\ StopCleanupRoutine s rt2 = Some rt2
    /\ exists g tk,
         goroutines rt2 = goroutines rt ++ [g]
         /\ exited g = false
         /\ cleanupTicker (captured g) = Some tk
         /\ ticker_active tk rt2 = true
         /\ chan_closed (stopCleanup (captured g)) rt2 = false
         /\ nth (wg (captured g)) (wgs rt2) 0 = 1.
Proof.
  intros cfg interval rt s rt1 rt2.
  split; [reflexivity|]. split; [reflexivity|].
  eexists. exists (List.length (tickers rt)).
  split; [reflexivity|]. split; [reflexivity|]. split; [reflexivity|].
  unfold ticker_active, chan_closed. cbn -[set_nth nth].
  rewrite set_nth_last, !nth_middle. auto.
Qed.

(** Only the copy the goroutine keeps can stop it. *)
Example stop_on_the_goroutines_copy :
  let s := fst (NewZipService (Sim.zipConfig 30) Sim.rt0) in
  let rt2 := StartCleanupRoutine s 86400 (snd (NewZipService (Sim.zipConfig 30) Sim.rt0)) in
  map exited (goroutines rt2) = [false]
  /\ option_map (fun rt => (map exited (goroutines rt), tickers rt, chans rt, wgs rt))
       (StopCleanupRoutine s rt2)
     = Some ([false], [TickerActive 86400], [ChanOpen; ChanOpen], [1])
  /\ option_map (fun rt => (map exited (goroutines rt), tickers rt, chans rt, wgs rt))
       (match goroutines rt2 with
        | g :: _ => StopCleanupRoutine (captured g) rt2
        | [] => None
        end)
     = Some ([true], [TickerStopped], [ChanOpen; ChanClosed], [0]).
Proof. vm_compute. repeat split. Qed.

(** ** The transcoder *)


Section TranscoderFacts.

Context {W Image : Type}.
Context `{S3 : S3Client W} `{PF : Platform W} `{IM : Imaging Image}.



End TranscoderFacts.



(** ** Download by file name *)

Lemma no_hyphen_of_list (l : list ascii) :
  Forall (fun c => c <> "-"%char) l -> no_hyphen (string_of_list_ascii l).
Proof. induction 1; simpl; auto. Qed.

Lemma split_hyphen_parts (s : string) :
  forall cur, Forall (fun c => c <> "-"%char) cur ->
              Forall no_hyphen (strings.split_from 0 s "-" cur).
Proof.
  induction s as [|c r IH]; intros cur Hcur; cbn [strings.split_from].
  - constructor; [|constructor]. apply no_hyphen_of_list, Forall_rev, Hcur.
  - cbn [strings.HasPrefix]. rewrite andb_true_r, Ascii.eqb_sym.
    destruct (Ascii.eqb_spec c "-") as [->|ne].
    + constructor.
      * apply no_hyphen_of_list, Forall_rev, Hcur.
      * apply IH. constructor.
    + apply IH. constructor; assumption.
Qed.

Lemma split_hyphen_nonempty (s : string) :
  forall cur, strings.split_from 0 s "-" cur <> [].
Proof.
  induction s as [|c r IH]; intro cur; cbn [strings.split_from].
  - discriminate.
  - destruct (strings.HasPrefix _ _); [discriminate | apply IH].
Qed.

Lemma last_part_some (parts : list string) :
  parts <> [] -> exists part, last_part parts = Some part /\ In part parts.
Proof.
  intro Hne. destruct parts as [|p parts]; [congruence|].
  unfold last_part.
  destruct (nth_error (p :: parts) (List.length (p :: parts) - 1)) as [part|] eqn:E.
  - exists part. split; [reflexivity|]. eapply nth_error_In, E.
  - apply nth_error_None in E. simpl in E. lia.
Qed.

Lemma trailing_segment_some (filename : string) :
  exists part, trailing_segment filename = Some part /\ no_hyphen part.
Proof.
  unfold trailing_segment, strings.Split.
  destruct (last_part_some
              (strings.split_from 0
                 (strings.TrimSuffix (filepath.Base filename) ".zip") "-" []))
    as (part & Hlast & Hin).
  - apply split_hyphen_nonempty.
  - exists part. split; [exact Hlast|].
    pose proof (split_hyphen_parts
                  (strings.TrimSuffix (filepath.Base filename) ".zip") []
                  (Forall_nil _)) as Hall.
    rewrite Forall_forall in Hall. now apply Hall.
Qed.

Lemma digit_of_nonneg c d : strconv.digit_of c = Some d -> 0 <= d.
Proof.
  unfold strconv.digit_of. destruct (_ && _); [|discriminate].
  intros [= <-]. lia.
Qed.

Lemma digits_nonneg (s : string) :
  forall acc n, 0 <= acc -> strconv.digits s acc = Some n -> 0 <= n.
Proof.
  induction s as [|c r IH]; intros acc n Hacc; cbn [strconv.digits].
  - intros [= <-]. exact Hacc.
  - destruct (strconv.digit_of c) as [d|] eqn:Hd; [|discriminate].
    apply digit_of_nonneg in Hd. apply IH. lia.
Qed.

(** Without a hyphen in front, [Atoi] cannot give a negative number. *)
Lemma Atoi_no_hyphen_nonneg (part : string) (n : Z) :
  no_hyphen part -> strconv.Atoi part = Some n -> 0 <= n.
Proof.
  destruct part as [|c r]; [discriminate|]. intros [Hc _].
  unfold strconv.Atoi.
  destruct (Ascii.eqb_spec c "-") as [->|_]; [congruence|].
  destruct (Ascii.eqb c "+").
  - destruct r as [|c' r']; [discriminate|].
    destruct (strconv.digits (String c' r') 0) as [v|] eqn:Hv; [|discriminate].
    apply digits_nonneg in Hv; [|lia].
    destruct (_ && _); [|discriminate]. now intros [= <-].
  - destruct (strconv.digits (String c r) 0) as [v|] eqn:Hv; [|discriminate].
    apply digits_nonneg in Hv; [|lia].
    destruct (_ && _); [|discriminate]. now intros [= <-].
Qed.

(** The file name [a-0.zip]: its trailing segment, [0], is not a positive
    integer, yet the handler does not reject the request; it looks up album
    0 and serves what the store has there. *)
Lemma album_zero_is_served :
  trailing_segment "a-0.zip" = Some "0"
  /\ ~ positive_integer "0"
  /\ val (DownloadZip Sim.controller carol "a-0.zip" album_zero_world)
     = Download "application/zip" "attachment; filename=a-0.zip" "2" "PK"
  /\ ~ (forall filename part,
          trailing_segment filename = Some part ->
          served (val (DownloadZip Sim.controller carol filename album_zero_world)) ->
          positive_integer part).
Proof.
  assert (Hnot : ~ positive_integer "0").
  { intros (n & Hn & Hpos). vm_compute in Hn. injection Hn as <-. lia. }
  assert (Hrun : val (DownloadZip Sim.controller carol "a-0.zip" album_zero_world)
                 = Download "application/zip" "attachment; filename=a-0.zip" "2" "PK")
    by (vm_compute; reflexivity).
  split; [reflexivity|]. split; [exact Hnot|]. split; [exact Hrun|].
  intro Hall. apply Hnot. apply (Hall "a-0.zip"); [reflexivity|].
  rewrite Hrun. unfold served. eauto.
Qed.

(** C9 (as amended). The handler never fails on an index: the file name
    always has a trailing segment.  When [strconv.Atoi] does not accept that
    segment the answer is 400 and the store is not asked for anything.  An
    object is served only when the segment parses, then as a number that is
    zero or more, and it is the object found under that album number for the
    logged-in client. *)
Theorem download_rejects_unparsable_album_id :
  forall (W : Type) (S3 : S3Client W) (PF : Platform W)
         (c : ClientAccessController) (client : Client.t) (filename : string)
         (w : W),
    let out := DownloadZip c client filename w in
    exists part,
      trailing_segment filename = Some part
      /\ val out <> Panic
      /\ (strconv.Atoi part = None ->
          val out = WriteText 400 "Invalid download link"
          /\ fetched (events out) = [])
      /\ (served (val out) ->
          exists albumID,
            strconv.Atoi part = Some albumID
            /\ 0 <= albumID
            /\ fetched_ok (events out)
               = [filepath.Join [clientPhotoFolder c;
                                 fmt.Sprint_uint (Client.ID client);
                                 fmt.Sprint_int albumID;
                                 "downloads";
                                 filepath.Base filename]]).
Proof.
  intros W S3 PF c client filename w out.
  destruct (trailing_segment_some filename) as (part & Hpart & Hhy).
  exists part. split; [exact Hpart|].
  unfold out, DownloadZip. cbv zeta.
  unfold trailing_segment in Hpart. rewrite Hpart.
  destruct (strconv.Atoi part) as [albumID|] eqn:Hatoi; eff.
  - destruct (fst (Get _ _ w)) as [object|e]; eff.
    + destruct (fst (responseCopy _ _)); eff;
        (split; [discriminate|]); (split; [discriminate|]); intros _;
        exists albumID; repeat split;
        eauto using Atoi_no_hyphen_nonneg.
    + split; [discriminate|]. split; [discriminate|].
      intros (ct & cd & cl & body & [=]).
  - split; [discriminate|]. split; [auto|].
    intros (ct & cd & cl & body & [=]).
Qed.

Lemma download_rejects_unparsable_album_id_witness :
  exists part,
    trailing_segment "../../etc/passwd-x.zip" = Some part
    /\ val (DownloadZip Sim.controller carol "../../etc/passwd-x.zip" album_zero_world)
       = WriteText 400 "Invalid download link"
    /\ fetched (events (DownloadZip Sim.controller carol "../../etc/passwd-x.zip"
                          album_zero_world)) = [].
Proof.
  destruct (download_rejects_unparsable_album_id Sim.World _ _ Sim.controller carol
              "../../etc/passwd-x.zip" album_zero_world)
    as (part & Hpart & _ & Hreject & _).
  exists part. split; [exact Hpart|]. apply Hreject.
  vm_compute in Hpart. injection Hpart as <-. vm_compute. reflexivity.
Defined.

(** * Further properties of the code *)

(** ** [processZip]: what is left of a build that fails *)

Lemma acknowledged_app a b : acknowledged (a ++ b) = acknowledged a || acknowledged b.
Proof. apply existsb_app. Qed.

Lemma closed_app a b : closed (a ++ b) = closed a ++ closed b.
Proof. apply flat_map_app. Qed.

#[export] Hint Rewrite acknowledged_app closed_app : history.

Section BuildFacts.

Context {W : Type}.
Context `{S3 : S3Client W} `{PF : Platform W}.

Lemma addFile_not_loop (s : ZipService) zw key (w : W) :
  forall e, In e (events (addFile s zw key w)) -> is_log e = true \/ is_loop_event e = true.
Proof.
  unfold addFile. cbv zeta. eff. intros e.
  repeat next_case; cbn; intuition (subst; auto).
Qed.

Lemma addFiles_not_loop (s : ZipService) zw objects :
  forall (w : W) e, In e (events (addFiles s zw objects w)) ->
                    is_log e = true \/ is_loop_event e = true.
Proof.
  induction objects as [|img rest IH]; intros w e; cbn [addFiles].
  - intros [].
  - eff. rewrite in_app_iff. intros [H|H].
    + eapply addFile_not_loop, H.
    + revert H. next_case; rewrite ?in_app_iff; cbn [In];
        intuition (subst; eauto).
Qed.

Lemma addFiles_acknowledged (s : ZipService) zw objects (w : W) :
  acknowledged (events (addFiles s zw objects w)) = false.
Proof.
  unfold acknowledged. apply not_true_is_false. intro H.
  apply existsb_exists in H as (e & Hin & He).
  apply addFiles_not_loop in Hin. destruct e; cbn in *; intuition discriminate.
Qed.



End BuildFacts.

Section BuildOutcomes.

Context {W : Type}.
Context `{S3 : S3Client W} `{PF : Platform W}.


End BuildOutcomes.

(** X1. [processZip] sends at most one notification, and sends it exactly
    when the store acknowledged the upload; an acknowledged upload means the
    stream was opened, the album listed and the zip writer and the stream
    closed, all without error.  When the stream cannot be opened nothing
    else is asked of the store. *)
Theorem notification_only_after_acknowledged_upload :
  forall (W : Type) (S3 : S3Client W) (PF : Platform W)
         (s : ZipService) (zk zf : string) (album : Album.t) (client : Client.t)
         (w : W),
    let tr := events (processZip s zk zf album client w) in
    let originals := filepath.Join [ClientPhotoFolder (config s);
                                    fmt.Sprint_uint (Album.ClientID album);
                                    fmt.Sprint_uint (Album.ID album);
                                    "originals"] in
    (List.length (sent tr) <= 1)%nat
    /\ (sent tr <> [] <-> acknowledged tr = true)
    /\ (acknowledged tr = true ->
        exists objects,
          In (EPutStream (Bucket (config s)) zk "application/zip" (Ok tt)) tr
          /\ In (EList (Bucket (config s)) originals [s3.WithGetAll] (Ok objects)) tr
          /\ In (EZipClose zk (Ok tt)) tr
          /\ In (EStreamClose zk (Ok tt)) tr)
    /\ (is_ok (fst (PutStream (Bucket (config s)) zk "application/zip" w)) = false ->
        calls tr = [EPutStream (Bucket (config s)) zk "application/zip"
                      (fst (PutStream (Bucket (config s)) zk "application/zip" w))]).
Proof.
  intros W S3 PF s zk zf album client w tr originals. subst tr.
  unfold processZip. cbv zeta. fold originals. eff.
  autorewrite with history. rewrite !sent_app.
  destruct (fst (PutStream _ _ _ w)) as [[]|e]; eff.
  2:{ cbn. repeat split; auto; try discriminate; try congruence. }
  autorewrite with history. rewrite !sent_app.
  destruct (fst (List _ _ _ _)) as [objects|e]; eff.
  2:{ cbn. repeat split; auto; try discriminate; try congruence. }
  autorewrite with history.
  rewrite !sent_app, addFiles_sent, addFiles_acknowledged.
  destruct (fst (zipClose _ _)) as [[]|e]; eff.
  2:{ cbn. repeat split; auto; try discriminate; try congruence. }
  autorewrite with history. rewrite !sent_app.
  destruct (fst (streamClose _ _)) as [[]|e]; eff.
  2:{ cbn. repeat split; auto; try discriminate; try congruence. }
  autorewrite with history. rewrite !sent_app.
  destruct (fst (streamWait _ _)) as [[]|e]; eff.
  2:{ cbn. repeat split; auto; try discriminate; try congruence. }
  unfold SendEmail. eff. autorewrite with history. rewrite !sent_app.
  destruct (fst (Send _ _ _)); eff; cbn - [In];
    (split; [lia|]); (split; [split; [reflexivity | discriminate]|]);
    (split; [|discriminate]); intros _; exists objects;
    repeat (rewrite in_app_iff || cbn [In]); intuition auto.
Qed.


(** ** [cleanupExpiredZips]: the count, and a failing catalog *)

Lemma deleted_ok_app a b : deleted_ok (a ++ b) = deleted_ok a ++ deleted_ok b.
Proof. apply flat_map_app. Qed.

Lemma asked_clients_app a b : asked_clients (a ++ b) = asked_clients a ++ asked_clients b.
Proof. apply flat_map_app. Qed.

Lemma finished_app a b : finished (a ++ b) = finished a || finished b.
Proof. apply existsb_app. Qed.

Lemma catalog_failed_app a b :
  catalog_failed (a ++ b) = catalog_failed a || catalog_failed b.
Proof. apply existsb_app. Qed.

#[export] Hint Rewrite deleted_ok_app asked_clients_app finished_app
  catalog_failed_app : history.

Lemma album_events_quiet (tr : list Event) :
  forallb is_album_event tr = true ->
  asked_clients tr = [] /\ finished tr = false /\ catalog_failed tr = false.
Proof.
  induction tr as [|e tr IH]; [repeat split|].
  cbn [forallb]. rewrite andb_true_iff. intros [He Htr].
  destruct (IH Htr) as (IH1 & IH2 & IH3).
  unfold finished, catalog_failed in *.
  destruct e; try discriminate He; cbn [asked_clients flat_map existsb app orb];
    rewrite ?IH2, ?IH3; auto.
  destruct lvl; cbn in He |- *; [|auto].
  apply negb_true_iff in He. rewrite He. auto.
Qed.

Section CleanupOutcomes.

Context {W : Type}.
Context `{S3 : S3Client W} `{CS : ClientServicer W} `{AS : AlbumServicer W}
        `{PF : Platform W}.

Lemma cleanupFiles_outcome (s : ZipService) cutoffTime files :
  forall n (w : W),
    let out := cleanupFiles s cutoffTime files n w in
    val out = n + Z.of_nat (List.length (deleted_ok (events out)))
    /\ forallb is_album_event (events out) = true.
Proof.
  induction files as [|file rest IH]; intros n w; cbn [cleanupFiles].
  - cbn. split; [lia | reflexivity].
  - destruct (strings.HasSuffix _ ".zip"); cbn [negb]; [|apply IH].
    destruct (time.Before _ _); [|apply IH].
    cbv zeta. eff. rewrite !forallb_app.
    destruct (fst (Delete _ _ _)); eff; autorewrite with history;
      rewrite ?forallb_app;
      match goal with
      | |- context [cleanupFiles s cutoffTime rest ?n' ?w'] =>
          destruct (IH n' w') as (-> & ->)
      end;
      cbn [deleted_ok flat_map app List.length forallb is_album_event andb];
      rewrite ?length_app; cbn [List.length]; split; try reflexivity; lia.
Qed.

Lemma cleanupAlbums_outcome (s : ZipService) cutoffTime albums :
  forall n (w : W),
    let out := cleanupAlbums s cutoffTime albums n w in
    val out = n + Z.of_nat (List.length (deleted_ok (events out)))
    /\ forallb is_album_event (events out) = true.
Proof.
  induction albums as [|album rest IH]; intros n w; cbn [cleanupAlbums].
  - cbn. split; [lia | reflexivity].
  - cbv zeta. eff. rewrite !forallb_app.
    destruct (fst (List _ _ _ w)) as [objects|e]; eff; autorewrite with history;
      rewrite ?forallb_app.
    + match goal with
      | |- context [cleanupFiles s cutoffTime objects ?n' ?w'] =>
          destruct (cleanupFiles_outcome s cutoffTime objects n' w') as (Hv & Ha);
          rewrite Ha;
          set (files := cleanupFiles s cutoffTime objects n' w') in *
      end.
      match goal with
      | |- context [cleanupAlbums s cutoffTime rest ?n' ?w'] =>
          destruct (IH n' w') as (-> & ->)
      end.
      rewrite Hv, ?length_app. cbn. split; [lia | reflexivity].
    + match goal with
      | |- context [cleanupAlbums s cutoffTime rest ?n' ?w'] =>
          destruct (IH n' w') as (-> & ->)
      end.
      cbn. split; [lia | reflexivity].
Qed.

Lemma cleanupClients_outcome (s : ZipService) cutoffTime clients :
  forall n (w : W),
    let out := cleanupClients s cutoffTime clients n w in
    finished (events out) = false
    /\ match val out with
       | Some m =>
           m = n + Z.of_nat (List.length (deleted_ok (events out)))
           /\ asked_clients (events out) = map Client.ID clients
           /\ catalog_failed (events out) = false
       | None =>
           catalog_failed (events out) = true
           /\ exists done client rest pre e,
                clients = done ++ client :: rest
                /\ asked_clients (events out) = map Client.ID (done ++ [client])
                /\ calls (events out) = pre ++ [EGetAlbumList (Client.ID client) (Err e)]
       end.
Proof.
  induction clients as [|client rest IH]; intros n w; cbn [cleanupClients].
  - cbn. repeat split. lia.
  - cbv zeta. eff.
    destruct (fst (GetAlbumList _ w)) as [albums|e] eqn:Hcat; eff;
      autorewrite with history.
    + match goal with
      | |- context [cleanupAlbums s cutoffTime albums ?n' ?w'] =>
          destruct (cleanupAlbums_outcome s cutoffTime albums n' w') as (Hv & Ha);
          destruct (album_events_quiet _ Ha) as (Hq1 & Hq2 & Hq3);
          set (inner := cleanupAlbums s cutoffTime albums n' w') in *
      end.
      match goal with
      | |- context [cleanupClients s cutoffTime rest ?n' ?w'] =>
          destruct (IH n' w') as (Hf & Hm);
          set (outer := cleanupClients s cutoffTime rest n' w') in *
      end.
      rewrite Hq1, Hq2, Hq3, Hf. cbn [finished catalog_failed existsb orb app
                                      asked_clients flat_map deleted_ok].
      split; [reflexivity|].
      destruct (val outer) as [m|].
      * destruct Hm as (-> & -> & ->). rewrite Hv, ?length_app.
        cbn [List.length map Nat.add]. split; [lia | split; reflexivity].
      * destruct Hm as (-> & done & c' & rest' & pre & e' & -> & -> & Hcalls).
        split; [reflexivity|].
        exists (client :: done), c', rest',
               (EGetAlbumList (Client.ID client) (Ok albums) :: calls (events inner) ++ pre),
               e'.
        split; [reflexivity|]. split; [reflexivity|].
        unfold calls in *. cbn [filter is_log negb].
        rewrite filter_app, Hcalls. cbn [app]. now rewrite <- app_assoc.
    + cbn. split; [reflexivity|]. split; [reflexivity|].
      exists [], client, rest, [], e. repeat split.
Qed.

End CleanupOutcomes.

(** X3. When the loop of the cleanup sweep over the clients runs to its
    end, the count it holds is the number of deletions the store carried
    out (a refused deletion is not counted), and every client was asked
    for its albums. *)
Theorem removed_count_is_successful_deletions :
  forall (W : Type) (S3 : S3Client W) (AS : AlbumServicer W)
         (s : ZipService) (cutoffTime : time.Time) (clients : list Client.t)
         (n : Z) (w : W),
    let out := cleanupClients s cutoffTime clients n w in
    match val out with
    | Some m =>
        m = n + Z.of_nat (List.length (deleted_ok (events out)))
        /\ asked_clients (events out) = map Client.ID clients
    | None => catalog_failed (events out) = true
    end.
Proof.
  intros W S3 AS s cutoffTime clients n w out.
  destruct (cleanupClients_outcome s cutoffTime clients n w) as (_ & H).
  fold out in H. destruct (val out); tauto.
Qed.

(** X4. A cleanup sweep that cannot read the client list asks the store for
    nothing.  A failing album query for one client ends the sweep at once:
    it is the last call of the sweep, the clients after it are not asked,
    and the sweep does not log its completion; the sweep logs its
    completion exactly when no album query failed and the client list was
    read, and then every client was asked, in order. *)
Theorem cleanup_stops_at_failing_catalog :
  forall (W : Type) (S3 : S3Client W) (CS : ClientServicer W)
         (AS : AlbumServicer W) (PF : Platform W) (s : ZipService) (w : W),
    let tr := events (cleanupExpiredZips s w) in
    match fst (GetAll (snd (Now w))) with
    | Err e => calls tr = [ENow (fst (Now w)); EGetAll (Err e)] /\ finished tr = false
    | Ok clients =>
        (finished tr = negb (catalog_failed tr))
        /\ (finished tr = true -> asked_clients tr = map Client.ID clients)
        /\ (catalog_failed tr = true ->
            exists done client rest pre e,
              clients = done ++ client :: rest
              /\ asked_clients tr = map Client.ID (done ++ [client])
              /\ calls tr = pre ++ [EGetAlbumList (Client.ID client) (Err e)])
    end.
Proof.
  intros W S3 CS AS PF s w tr. subst tr.
  unfold cleanupExpiredZips. cbv zeta. eff.
  destruct (fst (GetAll _)) as [clients|e]; eff; [|split; reflexivity].
  autorewrite with history.
  match goal with
  | |- context [cleanupClients s ?c clients ?n' ?w'] =>
      destruct (cleanupClients_outcome s c clients n' w') as (Hf & Hm);
      set (out := cleanupClients s c clients n' w') in *
  end.
  rewrite Hf. cbn [finished catalog_failed existsb orb asked_clients flat_map app].
  destruct (val out) as [m|]; eff; autorewrite with history.
  - destruct Hm as (_ & Ha & Hc). rewrite Hc, Ha, ?app_nil_r.
    split; [reflexivity|]. split; [intros _; reflexivity|].
    cbn. discriminate.
  - destruct Hm as (Hc & done & client & rest & pre & e & Hcl & Ha & Hcalls).
    rewrite Hc, Ha, ?app_nil_r.
    split; [reflexivity|]. split; [cbn; discriminate|].
    intros _. exists done, client, rest,
                     (ENow (fst (Now w)) :: EGetAll (Ok clients) :: pre), e.
    split; [exact Hcl|]. split; [reflexivity|].
    unfold calls in *. cbn [filter is_log negb].
    rewrite ?filter_app, Hcalls. cbn [filter app]. now rewrite ?app_nil_r.
Qed.

(** ** The home page: which thumbnails are made again *)

Lemma stats_app a b : stats (a ++ b) = stats a ++ stats b.
Proof. apply flat_map_app. Qed.

Lemma submitted_app a b : submitted (a ++ b) = submitted a ++ submitted b.
Proof. apply flat_map_app. Qed.

Lemma puts_app a b : puts (a ++ b) = puts a ++ puts b.
Proof. apply flat_map_app. Qed.

#[export] Hint Rewrite stats_app submitted_app puts_app : history.

Section HomePageFacts.

Context {W : Type}.
Context `{S3 : S3Client W}.

Lemma checkHomePageImages_outcome (c : CacheCreatorService) originals :
  forall w : W,
    let tr := events (checkHomePageImages c originals w) in
    map fst (stats tr) = map (home_thumbnail_key c) originals
    /\ submitted tr = home_tasks c originals (answers tr)
    /\ fetched tr = [] /\ puts tr = [] /\ list_keys tr = [].
Proof.
  induction originals as [|original rest IH]; intros w; cbn [checkHomePageImages].
  - cbn. auto.
  - cbv zeta. eff. fold (home_thumbnail_key c original).
    unfold answers in *.
    destruct (fst (StatObject _ _ w)) as [[st|]|e]; eff;
      try destruct (time.Before _ _) eqn:Hold; eff;
      autorewrite with history;
      match goal with
      | |- context [checkHomePageImages c rest ?w'] =>
          destruct (IH w') as (Hk & Hs & Hf & Hp & Hl)
      end;
      cbn [stats submitted fetched puts list_keys flat_map app map fst snd
           home_tasks combine needs_resize];
      rewrite ?Hold, Hk, Hs, Hf, Hp, Hl; auto.
Qed.

End HomePageFacts.

(** X5. [updateHomePageCache] fails only when the listing of the originals
    fails, and then does nothing else.  Otherwise it returns no error,
    whatever the store answers afterwards: it asks once for the thumbnail of
    every listed original, in order, and submits a resize for exactly the
    originals whose thumbnail is missing or older than the original; an
    original for which the question fails is passed over.  The scan itself
    fetches and uploads nothing. *)
Theorem home_page_scan_resubmits_missing_and_older_thumbnails :
  forall (W : Type) (S3 : S3Client W) (c : CacheCreatorService) (w : W),
    let out := updateHomePageCache c w in
    let tr := events out in
    let originalsKey := filepath.Join [homePagePhotoFolder c; "original"] in
    match fst (List (awsBucket c) originalsKey [s3.WithGetUrls] w) with
    | Err e =>
        val out = Err (Sprintf ["error listing home page images: "; e])
        /\ calls tr = [EList (awsBucket c) originalsKey [s3.WithGetUrls] (Err e)]
    | Ok originals =>
        val out = Ok tt
        /\ map fst (stats tr) = map (home_thumbnail_key c) originals
        /\ submitted tr = home_tasks c originals (answers tr)
        /\ fetched tr = [] /\ puts tr = []
    end.
Proof.
  intros W S3 c w out tr originalsKey. subst out tr.
  unfold updateHomePageCache. cbv zeta. fold originalsKey. eff.
  destruct (fst (List _ _ _ w)) as [originals|e]; eff.
  - match goal with
    | |- context [checkHomePageImages c originals ?w'] =>
        destruct (checkHomePageImages_outcome c originals w') as (Hk & Hs & Hf & Hp & _)
    end.
    unfold answers in *. autorewrite with history.
    cbn [stats submitted fetched puts flat_map app map].
    rewrite Hk, Hs, Hf, Hp. auto.
  - split; reflexivity.
Qed.

(** ** [CreateCache]: what the scan does itself *)

Lemma bucket_failed_app a b : bucket_failed (a ++ b) = bucket_failed a || bucket_failed b.
Proof. apply existsb_app. Qed.

Lemma aborted_app a b : aborted (a ++ b) = aborted a || aborted b.
Proof. apply existsb_app. Qed.

#[export] Hint Rewrite bucket_failed_app aborted_app : history.

(** The loops neither end the process nor touch the pool's life cycle or
    the bucket. *)
Lemma loop_scan_events (tr : list Event) :
  forallb is_loop_scan_event tr = true ->
  forallb is_scan_event tr = true
  /\ existsb is_exit tr = false
  /\ existsb is_pool_wait tr = false
  /\ existsb is_new_pool tr = false
  /\ bucket_failed tr = false
  /\ fetched tr = [] /\ puts tr = [].
Proof.
  induction tr as [|e tr IH]; cbn [forallb]; [cbn; auto 10|].
  intros [He Htr]%andb_prop. destruct (IH Htr) as (H1 & H2 & H3 & H4 & H5 & H6 & H7).
  unfold bucket_failed in *.
  cbn [forallb existsb fetched puts flat_map].
  fold (fetched tr) (puts tr).
  rewrite H1, H2, H3, H4, H5, H6, H7.
  destruct e; try discriminate He; cbn; auto 10.
Qed.

Section ScanFacts.

Context {W : Type}.
Context `{S3 : S3Client W} `{CS : ClientServicer W} `{AS : AlbumServicer W}.

Lemma checkHomePageImages_scan (c : CacheCreatorService) originals :
  forall w : W,
    let tr := events (checkHomePageImages c originals w) in
    forallb is_loop_scan_event tr = true
    /\ aborted tr = false
    /\ asked_clients tr = [].
Proof.
  induction originals as [|original rest IH]; intros w; cbn [checkHomePageImages].
  - cbn. auto.
  - cbv zeta. eff.
    destruct (fst (StatObject _ _ w)) as [[st|]|e]; eff;
      try destruct (time.Before _ _); eff;
      autorewrite with history; rewrite ?forallb_app;
      match goal with
      | |- context [checkHomePageImages c rest ?w'] =>
          destruct (IH w') as (-> & -> & ->)
      end; cbn; auto.
Qed.

Lemma updateHomePageCache_scan (c : CacheCreatorService) (w : W) :
  let tr := events (updateHomePageCache c w) in
  forallb is_loop_scan_event tr = true
  /\ aborted tr = false
  /\ asked_clients tr = []
  /\ Forall (fun key => exists original, key = home_thumbnail_key c original)
            (map fst (stats tr)).
Proof.
  unfold updateHomePageCache. cbv zeta. eff.
  destruct (fst (List _ _ _ w)) as [originals|e]; eff.
  - match goal with
    | |- context [checkHomePageImages c originals ?w'] =>
        destruct (checkHomePageImages_scan c originals w') as (Hs & Ha & Hc);
        destruct (checkHomePageImages_outcome c originals w') as (Hk & _)
    end.
    autorewrite with history. rewrite ?forallb_app, Hs, Ha, Hc.
    cbn [stats flat_map app map]. rewrite Hk.
    repeat (split; [reflexivity|]).
    apply Forall_forall. intros key (original & <- & _)%in_map_iff. eauto.
  - cbn. auto.
Qed.

Lemma submitThumbnails_events client album images (w : W) :
  events (submitThumbnails client album images w)
  = map (fun imageObj => ESubmit (ThumbnailTask client album imageObj)) images.
Proof.
  revert w. induction images as [|imageObj rest IH]; intro w; cbn [submitThumbnails].
  - reflexivity.
  - eff. now rewrite IH.
Qed.

Lemma thumbnail_submissions client album images :
  let tr := map (fun imageObj => ESubmit (ThumbnailTask client album imageObj)) images in
  submitted tr = map (ThumbnailTask client album) images
  /\ forallb is_loop_scan_event tr = true
  /\ aborted tr = false /\ stats tr = [] /\ list_keys tr = [] /\ listed tr = []
  /\ catalog tr = [] /\ asked_clients tr = [].
Proof.
  induction images as [|imageObj rest IH]; cbn [map].
  - cbn. auto 10.
  - destruct IH as (H1 & H2 & H3 & H4 & H5 & H6 & H7 & H8).
    unfold aborted in *.
    cbn [submitted stats list_keys listed catalog asked_clients flat_map forallb
         existsb is_loop_scan_event is_abort_log app andb orb].
    fold (submitted (map (fun imageObj => ESubmit (ThumbnailTask client album imageObj)) rest)).
    rewrite H1. auto 10.
Qed.

Lemma cacheAlbums_outcome (c : CacheCreatorService) client albums :
  forall w : W,
    let out := cacheAlbums c client albums w in
    let tr := events out in
    forallb is_loop_scan_event tr = true
    /\ aborted tr = negb (val out)
    /\ stats tr = [] /\ catalog tr = [] /\ asked_clients tr = []
    /\ exists visits : list Visit,
         submitted tr = flat_map tasks_of visits
         /\ map (fun v => originalsKey c (visit_album v)) visits = list_keys tr
         /\ List.concat (map visit_images visits) = List.concat (listed tr)
         /\ Forall (fun v => visit_client v = client /\ In (visit_album v) albums) visits
         /\ (val out = true ->
             map visit_album visits = albums /\ map visit_images visits = listed tr).
Proof.
  induction albums as [|album rest IH]; intros w; cbn [cacheAlbums].
  - cbn. repeat (split; [reflexivity|]). exists []. cbn.
    repeat (split; [reflexivity|]). split; [constructor|auto].
  - unfold getAlbumImageListing. eff.
    destruct (fst (List _ _ _ w)) as [images|e] eqn:Hlist; eff.
    + rewrite submitThumbnails_events.
      destruct (thumbnail_submissions client album images)
        as (T1 & T2 & T3 & T4 & T5 & T6 & T7 & T8).
      match goal with
      | |- context [cacheAlbums c client rest ?w'] =>
          destruct (IH w') as (H1 & H2 & H3 & H4 & H5 & visits & V1 & V2 & V3 & V4 & V5)
      end.
      autorewrite with history. rewrite ?forallb_app.
      rewrite T1, T2, T3, T4, T5, T6, T7, T8, H1, H2, H3, H4, H5.
      cbn [forallb existsb is_loop_scan_event is_abort_log andb orb aborted
           stats catalog asked_clients submitted list_keys listed flat_map app].
      repeat (split; [reflexivity|]).
      exists ((client, album, images) :: visits).
      cbn [flat_map map tasks_of visit_client visit_album visit_images fst snd
           List.concat app].
      rewrite V1, V2, V3, <- ?app_comm_cons.
      split; [reflexivity|]. split; [reflexivity|]. split; [reflexivity|].
      split.
      * constructor; [cbn; auto|].
        eapply Forall_impl; [|exact V4]. cbn. intuition.
      * intro Hv. destruct (V5 Hv) as (<- & <-). auto.
    + cbn. repeat (split; [reflexivity|]).
      exists [(client, album, [])]. cbn.
      repeat (split; [reflexivity|]). split; [|discriminate].
      constructor; [cbn; auto|constructor].
Qed.

Lemma cacheClients_outcome (c : CacheCreatorService) clients :
  forall w : W,
    let out := cacheClients c clients w in
    let tr := events out in
    forallb is_loop_scan_event tr = true
    /\ aborted tr = negb (val out)
    /\ stats tr = []
    /\ exists visits : list Visit,
         submitted tr = flat_map tasks_of visits
         /\ map (fun v => originalsKey c (visit_album v)) visits = list_keys tr
         /\ List.concat (map visit_images visits) = List.concat (listed tr)
         /\ Forall (fun v => In (visit_client v) clients
                             /\ In (visit_album v) (catalog tr)) visits
         /\ (val out = true ->
             map visit_album visits = catalog tr
             /\ map visit_images visits = listed tr
             /\ asked_clients tr = map Client.ID clients).
Proof.
  induction clients as [|client rest IH]; intros w; cbn [cacheClients].
  - cbn. repeat (split; [reflexivity|]). exists []. cbn.
    repeat (split; [reflexivity|]). split; [constructor|auto].
  - eff. destruct (fst (GetAlbumList _ w)) as [albums|e] eqn:Hcat; eff.
    + match goal with
      | |- context [cacheAlbums c client albums ?w'] =>
          destruct (cacheAlbums_outcome c client albums w')
            as (A1 & A2 & A3 & A4 & A5 & va & VA1 & VA2 & VA3 & VA4 & VA5);
          destruct (val (cacheAlbums c client albums w')) eqn:Hfin
      end; eff.
      * match goal with
        | |- context [cacheClients c rest ?w'] =>
            destruct (IH w') as (H1 & H2 & H3 & vs & V1 & V2 & V3 & V4 & V5)
        end.
        autorewrite with history. rewrite ?forallb_app.
        rewrite A1, A2, A3, A4, A5, H1, H2, H3.
        cbn [forallb existsb is_loop_scan_event is_abort_log andb orb aborted
             stats catalog asked_clients submitted list_keys listed flat_map app
             negb].
        repeat (split; [reflexivity|]).
        exists (va ++ vs).
        rewrite flat_map_app, !map_app, concat_app, concat_app.
        rewrite VA1, VA2, VA3, V1, V2, V3, ?app_nil_r.
        repeat (split; [reflexivity|]).
        destruct (VA5 eq_refl) as (Ea & Ei).
        split.
        -- apply Forall_app. split.
           ++ eapply Forall_impl; [|exact VA4]. cbn. intros v [-> Hin].
              rewrite in_app_iff. auto.
           ++ eapply Forall_impl; [|exact V4]. cbn. intros v [Hc Hin].
              rewrite in_app_iff. auto.
        -- intro Hv. destruct (V5 Hv) as (-> & -> & ->).
           rewrite Ea, Ei. auto.
      * autorewrite with history. rewrite ?forallb_app.
        rewrite A1, A2, A3, A4, A5.
        cbn [forallb existsb is_loop_scan_event is_abort_log andb orb aborted
             stats catalog asked_clients submitted list_keys listed flat_map app
             negb].
        repeat (split; [reflexivity|]).
        exists va. rewrite VA1, VA2, VA3, ?app_nil_r.
        repeat (split; [reflexivity|]).
        split; [|discriminate].
        eapply Forall_impl; [|exact VA4]. cbn. intros v [-> Hin]. auto.
    + cbn. repeat (split; [reflexivity|]). exists []. cbn.
      repeat (split; [reflexivity|]). split; [constructor|discriminate].
Qed.

End ScanFacts.


Lemma bucket_events_quiet (tr : list Event) :
  forallb is_bucket_event tr = true ->
  forallb is_scan_event tr = true
  /\ existsb is_exit tr = false
  /\ existsb is_pool_wait tr = false
  /\ existsb is_new_pool tr = false
  /\ aborted tr = false
  /\ submitted tr = [] /\ stats tr = [].
Proof.
  induction tr as [|e tr IH]; cbn [forallb]; [cbn; auto 10|].
  intros [He Htr]%andb_prop. destruct (IH Htr) as (H1 & H2 & H3 & H4 & H5 & H6 & H7).
  unfold aborted in *.
  cbn [forallb existsb submitted stats flat_map].
  fold (submitted tr) (stats tr).
  rewrite H1, H2, H3, H4, H5, H6, H7.
  destruct e as [| | | | | | | | | | | | | | | | | | | | | | | | |[|] msg];
    try discriminate He; cbn; auto 10.
Qed.

Lemma scan_events_transfer_nothing (tr : list Event) :
  forallb is_scan_event tr = true ->
  fetched tr = [] /\ puts tr = [] /\ deleted tr = [] /\ sent tr = [].
Proof.
  induction tr as [|e tr IH]; cbn [forallb]; [cbn; auto|].
  intros [He Htr]%andb_prop. destruct (IH Htr) as (H1 & H2 & H3 & H4).
  cbn [fetched puts deleted sent flat_map].
  fold (fetched tr) (puts tr) (deleted tr) (sent tr).
  rewrite H1, H2, H3, H4.
  destruct e; try discriminate He; cbn; auto.
Qed.

Lemma submitted_before (A B : list Event) (x : Event) :
  submitted A = [] ->
  forall pre t post,
    A ++ x :: B = pre ++ ESubmit t :: post -> x <> ESubmit t -> In x pre.
Proof.
  intros HA pre t post Heq Hx.
  apply app_eq_app in Heq as (l & [[-> Hl] | [-> Hl]]).
  - destruct l as [|y l]; cbn in Hl.
    + injection Hl as <- _. congruence.
    + injection Hl as <- _. rewrite submitted_app in HA. cbn in HA.
      apply app_eq_nil in HA as [_ HA]. discriminate HA.
  - destruct l as [|y l]; cbn in Hl.
    + injection Hl as -> _. congruence.
    + injection Hl as -> _. rewrite in_app_iff. cbn. auto.
Qed.

Section BootstrapFacts.

Context {W : Type}.
Context `{S3 : S3Client W} `{CS : ClientServicer W} `{AS : AlbumServicer W}.

Lemma ensureBucketExists_outcome (c : CacheCreatorService) bucketName (w : W) :
  let out := ensureBucketExists c bucketName w in
  forallb is_bucket_event (events out) = true
  /\ bucket_failed (events out) = negb (is_ok (val out)).
Proof.
  unfold ensureBucketExists. eff.
  destruct (fst (BucketExists _ w)) as [[|]|e]; eff; [cbn; auto| |cbn; auto].
  destruct (fst (CreateBucket _ _ _)); eff; cbn; auto.
Qed.

End BootstrapFacts.

Section CreateCacheFacts.

Context {W : Type}.
Context `{S3 : S3Client W} `{CS : ClientServicer W} `{AS : AlbumServicer W}.

(** The three ways a run of [CreateCache] can go: the bucket check fails,
    the client list cannot be read, or the pool is created and the loops
    run. *)
Lemma CreateCache_history (c : CacheCreatorService) (w : W) :
  let tr := events (CreateCache c w) in
  exists be,
    forallb is_bucket_event be = true
    /\ ((bucket_failed be = true
         /\ tr = ELog Info "starting cache creation..." :: be
                 ++ [ELog Error "error ensuring bucket exists. aborting"; EExit 1])
        \/ (bucket_failed be = false
            /\ exists e,
                 tr = ELog Info "starting cache creation..." :: be
                      ++ [EGetAll (Err e);
                          ELog Error "error retrieving clients from database"])
        \/ (bucket_failed be = false
            /\ exists clients he ce fin,
                 tr = ELog Info "starting cache creation..." :: be
                      ++ [EGetAll (Ok clients);
                          ELog Info "creating cache for clients..."]
                      ++ ENewPool (maxCacheWorkers c)
                      :: (he ++ ce) ++ (if fin : bool then [EPoolStopWait] else [])
                 /\ forallb is_loop_scan_event he = true
                 /\ aborted he = false
                 /\ Forall (fun key => exists original, key = home_thumbnail_key c original)
                           (map fst (stats he))
                 /\ forallb is_loop_scan_event ce = true
                 /\ aborted ce = negb fin
                 /\ stats ce = [])).
Proof.
  unfold CreateCache. eff.
  destruct (ensureBucketExists_outcome c (awsBucket c) w) as (Hbe & Hbf).
  exists (events (ensureBucketExists c (awsBucket c) w)).
  split; [exact Hbe|]. rewrite Hbf.
  destruct (val (ensureBucketExists c (awsBucket c) w)) as [[]|e0]; eff; cbn [is_ok negb].
  - right.
    destruct (fst (GetAll _)) as [clients|e] eqn:Hall; eff.
    + right. split; [reflexivity|].
      match goal with
      | |- context [events (updateHomePageCache c ?w1)] =>
          destruct (updateHomePageCache_scan c w1) as (Hh1 & Hh2 & _ & Hh4);
          set (home := updateHomePageCache c w1) in *
      end.
      match goal with
      | |- context [events (cacheClients c clients ?w2)] =>
          destruct (cacheClients_outcome c clients w2) as (Hc1 & Hc2 & Hc3 & _);
          set (loop := cacheClients c clients w2) in *
      end.
      exists clients,
        (events home
         ++ match val home with
            | Err _ => [ELog Error "error updating home page cache"]
            | Ok _ => []
            end),
        (events loop), (val loop).
      split.
      * cbn [app]. f_equal. f_equal. cbn [app]. do 3 f_equal.
        destruct (val home); eff; destruct (val loop); eff;
          now rewrite <- ?app_assoc, ?app_nil_r.
      * rewrite forallb_app, aborted_app, stats_app, map_app, Hh1, Hh2.
        destruct (val home); cbn [forallb is_loop_scan_event aborted existsb
                                  is_abort_log abort_messages andb orb stats
                                  flat_map map app];
          rewrite ?app_nil_r; auto 10.
    + left. split; [reflexivity|]. exists e. reflexivity.
  - left. split; reflexivity.
Qed.

End CreateCacheFacts.
